(** * preact-context: the context hub, Provider and Consumer of [src/context.ts]

    A shallow embedding of [context.ts] and the properties of its
    selective-update broadcast mechanism.

    - JavaScript values, truthiness, [===], [&&], [||] and [ToInt32] are
      written out as the language defines them.
    - [ContextProvider] keeps its [_updaters] in a JavaScript array: arrays
      live in a store and are named by reference, so that [push] (in place)
      and [filter] (a fresh array) keep the aliasing they have in the source,
      and [forEach] reads the array it was started on.
    - Updater callbacks are caller code.  A callback is known by its identity;
      what it does to the hub when it is called (register, unregister,
      setValue, in any number and order) is given by a [Body]; callbacks are
      taken to return normally.  Calls can nest without bound, so running
      them takes fuel.
    - Every call of an updater is recorded, with the depth of the call stack
      at which it was made: the calls made at a method's own depth are the
      ones that method makes itself. *)

From Stdlib Require Import ZArith QArith.
From stdpp Require Import base option list strings pretty gmap.

Local Open Scope Z_scope.

(** ** JavaScript values *)

(** A JavaScript [number]: a finite double (a rational; [+0] and [-0] are
    not told apart by any operation of this file), [NaN], or an infinity. *)
Inductive number : Type :=
| Num (q : Q)
| NaN
| PosInfinity
| NegInfinity.

(** Values as the code can meet them: primitives, and objects and functions
    by reference. *)
Inductive JsValue : Type :=
| JUndefined
| JNull
| JBool (b : bool)
| JNum (n : number)
| JStr (s : string)
| JObj (ref : nat)
| JFun (ref : nat).

Definition number_eq (a b : number) : bool :=
  match a, b with
  | Num p, Num q => Qeq_bool p q
  | PosInfinity, PosInfinity => true
  | NegInfinity, NegInfinity => true
  | _, _ => false
  end.

(** [a === b] *)
Definition strict_eq (a b : JsValue) : bool :=
  match a, b with
  | JUndefined, JUndefined => true
  | JNull, JNull => true
  | JBool x, JBool y => Bool.eqb x y
  | JNum x, JNum y => number_eq x y
  | JStr x, JStr y => String.eqb x y
  | JObj x, JObj y => Nat.eqb x y
  | JFun x, JFun y => Nat.eqb x y
  | _, _ => false
  end.

(** [ToBoolean] *)
Definition truthy (v : JsValue) : bool :=
  match v with
  | JUndefined | JNull => false
  | JBool b => b
  | JNum (Num q) => negb (Qeq_bool q 0)
  | JNum NaN => false
  | JNum _ => true
  | JStr s => negb (String.eqb s EmptyString)
  | JObj _ | JFun _ => true
  end.

(** [a && b] and [a || b] (both operands already evaluated: every operand in
    the source is a variable or a property read). *)
Definition js_and (a b : JsValue) : JsValue := if truthy a then b else a.
Definition js_or (a b : JsValue) : JsValue := if truthy a then a else b.

(** [typeof v === "function"] *)
Definition is_function (v : JsValue) : bool :=
  match v with JFun _ => true | _ => false end.

(** Reduction of an integer modulo 2^32 into the signed 32-bit range. *)
Definition wrap32 (z : Z) : Z :=
  let m := z mod 2 ^ 32 in
  if m <? 2 ^ 31 then m else m - 2 ^ 32.

(** [ToInt32], the conversion behind [x | 0] and [x & y]: [NaN] and the
    infinities give 0, a finite number is truncated towards zero and wrapped. *)
Definition to_int32 (n : number) : Z :=
  match n with
  | Num q => wrap32 (Z.quot (Qnum q) (Z.pos (Qden q)))
  | NaN | PosInfinity | NegInfinity => 0
  end.

(** An integer as a JavaScript number. *)
Definition of_Z (z : Z) : number := Num (inject_Z z).

(** [a | b] and [a & b] *)
Definition js_bitor (a b : number) : Z := Z.lor (to_int32 a) (to_int32 b).
Definition js_bitand (a b : number) : Z := Z.land (to_int32 a) (to_int32 b).

Definition MAX_SIGNED_31_BIT_INT : number := of_Z 1073741823.

(** The signed 31-bit range, whose largest member is
    [MAX_SIGNED_31_BIT_INT], and the signed 32-bit range. *)
Definition int31 (z : Z) : Prop := - 2 ^ 30 <= z <= 2 ^ 30 - 1.
Definition int32 (z : Z) : Prop := - 2 ^ 31 <= z <= 2 ^ 31 - 1.

(** An optional property that the code tests against both [undefined] and
    [null]. *)
Inductive optional (A : Type) : Type :=
| Undefined
| Null
| Given (a : A).
Arguments Undefined {A}.
Arguments Null {A}.
Arguments Given {A} a.

(** How a call or a property read completes. *)
Inductive Completion (A : Type) : Type :=
| Normal (a : A)
| Throw (error : string).
Arguments Normal {A} a.
Arguments Throw {A} error.

(** ** The world: the store of arrays, the hub, and what has been observed *)

(** A [StateUpdater] closure, known by its identity ([i !== updater] compares
    identities). *)
Definition updater : Type := nat.

(** [BitmaskFactory<T>]: caller code, taken to be a pure function. *)
Definition BitmaskFactory : Type := JsValue -> JsValue -> number.

(** The fields of a [ContextProvider] instance; [_updaters] holds a reference
    into the store of arrays. *)
Record ContextProvider : Type := {
  value : JsValue;
  _updaters : nat
}.

(** One invocation of an updater: [updater(arg_value, arg_bitmask)], made
    while [at_depth] updater invocations were already on the call stack. *)
Record Call : Type := {
  callee : updater;
  arg_value : JsValue;
  arg_bitmask : Z;
  at_depth : nat
}.

Record World : Type := {
  arrays : list (list updater);  (* array reference |-> contents *)
  hub : ContextProvider;         (* the instance [this] *)
  calls : list Call;             (* updater invocations so far, oldest first *)
  console : list string;         (* [console.warn] messages, oldest first *)
  depth : nat                    (* updater invocations now on the call stack *)
}.

Definition with_arrays (h : list (list updater)) (w : World) : World :=
  {| arrays := h; hub := hub w; calls := calls w;
     console := console w; depth := depth w |}.

Definition with_hub (p : ContextProvider) (w : World) : World :=
  {| arrays := arrays w; hub := p; calls := calls w;
     console := console w; depth := depth w |}.

Definition with_calls (l : list Call) (w : World) : World :=
  {| arrays := arrays w; hub := hub w; calls := l;
     console := console w; depth := depth w |}.

Definition with_depth (d : nat) (w : World) : World :=
  {| arrays := arrays w; hub := hub w; calls := calls w;
     console := console w; depth := d |}.

(** [console.warn(msg)], on the list of messages and on a world. *)
Definition warn (msg : string) (out : list string) : list string :=
  out ++ [msg].

Definition console_warn (msg : string) (w : World) : World :=
  {| arrays := arrays w; hub := hub w; calls := calls w;
     console := warn msg (console w); depth := depth w |}.

(** The contents of the array at reference [a]. *)
Definition array_get (a : nat) (w : World) : list updater :=
  default [] (arrays w !! a).

(** [a.push(u)]: the array at [a] grows in place. *)
Definition array_push (a : nat) (u : updater) (w : World) : World :=
  with_arrays (alter (fun l => l ++ [u]) a (arrays w)) w.

(** A fresh array holding [l]; its reference is returned. *)
Definition array_new (l : list updater) (w : World) : nat * World :=
  (length (arrays w), with_arrays (arrays w ++ [l]) w).

(** [this._updaters], read through the reference. *)
Definition updaters (w : World) : list updater :=
  array_get (_updaters (hub w)) w.

(** The world just after [new ContextProvider(initialValue)]:
    [_updaters = []] is a fresh array and nothing has been called. *)
Definition new_ContextProvider (initialValue : JsValue) : World :=
  {| arrays := [[]];
     hub := {| value := initialValue; _updaters := 0%nat |};
     calls := []; console := []; depth := 0%nat |}.

(** What a method hands back: nothing, or a closure over the hub. *)
Inductive Returned : Type :=
| RetUndefined
| RetClosure (run : World -> World).

(** Calling what a method handed back: [undefined()] is a [TypeError]. *)
Definition call_returned (r : Returned) (w : World) : Completion World :=
  match r with
  | RetClosure run => Normal (run w)
  | RetUndefined => Throw "TypeError: not a function"
  end.

(** ** ContextProvider *)

(** [unregister(updater)]:
    [this._updaters = this._updaters.filter(i => i !== updater)].
    [filter] builds a new array; the old one is left as it was. *)
Definition unregister (u : updater) (w : World) : World :=
  let kept := filter (fun i => i ≠ u) (updaters w) in
  let (a, w1) := array_new kept w in
  with_hub {| value := value (hub w1); _updaters := a |} w1.

(** What an updater does to the hub while it runs. *)
Inductive Op : Type :=
| CallRegister (u : updater)
| CallUnregister (u : updater)
| CallSetValue (newValue : JsValue) (bitmaskFactory : BitmaskFactory).

(** The code of the updaters: the hub operations that updater [u] performs,
    in order, when it is called with [(v, bitmask)] in world [w]. *)
Definition Body : Type := World -> updater -> JsValue -> Z -> list Op.

(** A way of calling an updater with [(v, bitmask)] in a world; [None] when
    the call does not return within the fuel at hand. *)
Definition Invoke : Type := updater -> JsValue -> Z -> World -> option World.

Section Methods.

(** How an updater is called (defined below, once the methods are). *)
Variable invoke : Invoke.

(** [Array.prototype.forEach]: the length is read once, before the first
    call; then for each index [k] below it the element is read from the array
    as it is at that moment, and an index with no element is skipped. *)
Fixpoint forEach_from (a : nat) (callbackfn : updater -> World -> option World)
    (k n : nat) (w : World) : option World :=
  match n with
  | O => Some w
  | S n' =>
      match array_get a w !! k with
      | Some up =>
          match callbackfn up w with
          | Some w' => forEach_from a callbackfn (S k) n' w'
          | None => None
          end
      | None => forEach_from a callbackfn (S k) n' w
      end
  end.

Definition forEach (a : nat) (callbackfn : updater -> World -> option World)
    (w : World) : option World :=
  forEach_from a callbackfn 0 (length (array_get a w)) w.

(** [register(updater)] *)
Definition register (u : updater) (w : World) : option (World * Returned) :=
  let w1 := array_push (_updaters (hub w)) u w in
  match invoke u (value (hub w1)) 0 w1 with
  | Some w2 => Some (w2, RetClosure (unregister u))
  | None => None
  end.

(** [setValue(newValue, bitmaskFactory)] *)
Definition setValue (newValue : JsValue) (bitmaskFactory : BitmaskFactory)
    (w : World) : option World :=
  if strict_eq newValue (value (hub w)) then Some w
  else
    let diff := bitmaskFactory (value (hub w)) newValue in
    let diff := js_bitor diff (of_Z 0) in
    let w1 := with_hub {| value := newValue;
                          _updaters := _updaters (hub w) |} w in
    forEach (_updaters (hub w1)) (fun up => invoke up newValue diff) w1.

Definition run_op (op : Op) (w : World) : option World :=
  match op with
  | CallRegister u => fst <$> register u w
  | CallUnregister u => Some (unregister u w)
  | CallSetValue newValue bitmaskFactory => setValue newValue bitmaskFactory w
  end.

Fixpoint run_ops (ops : list Op) (w : World) : option World :=
  match ops with
  | [] => Some w
  | op :: ops' =>
      match run_op op w with
      | Some w' => run_ops ops' w'
      | None => None
      end
  end.

End Methods.

(** Calling updater [u] with [(v, bitmask)]: the call is recorded, then the
    updater's code runs one level deeper on the call stack.  [None] when the
    nesting of calls exceeds [fuel]. *)
Fixpoint call_updater (body : Body) (fuel : nat) (u : updater) (v : JsValue)
    (bitmask : Z) (w : World) : option World :=
  match fuel with
  | O => None
  | S fuel' =>
      let here := {| callee := u; arg_value := v; arg_bitmask := bitmask;
                     at_depth := depth w |} in
      let w1 := with_depth (S (depth w)) (with_calls (calls w ++ [here]) w) in
      match run_ops (call_updater body fuel') (body w1 u v bitmask) w1 with
      | Some w2 => Some (with_depth (depth w) w2)
      | None => None
      end
  end.

(** The hub's methods as a caller runs them. *)
Definition hub_register (body : Body) (fuel : nat) :=
  register (call_updater body fuel).
Definition hub_setValue (body : Body) (fuel : nat) :=
  setValue (call_updater body fuel).
Definition hub_run (body : Body) (fuel : nat) :=
  run_ops (call_updater body fuel).

(** Updaters that leave the hub alone. *)
Definition inert : Body := fun _ _ _ _ => [].

(** The calls that [w'] has recorded beyond those of [w]. *)
Definition new_calls (w w' : World) : list Call :=
  drop (length (calls w)) (calls w').

(** Of a list of calls, those made at call-stack depth [d]: the calls a method
    running at depth [d] makes itself, as opposed to the calls made by the
    updaters it calls. *)
Definition made_at (d : nat) (l : list Call) : list Call :=
  filter (fun c => at_depth c = d) l.

(** The call [u(v, bitmask)] made at depth [d]. *)
Definition call_of (v : JsValue) (bitmask : Z) (d : nat) (u : updater) : Call :=
  {| callee := u; arg_value := v; arg_bitmask := bitmask; at_depth := d |}.

(** *** The spec's reading of the fan-out

    [setValue] as the specification words it: the subscriber list is copied
    when the fan-out starts, and the copy is what is iterated. *)
Fixpoint notify_snapshot (invoke : Invoke) (snapshot : list updater)
    (v : JsValue) (bitmask : Z) (w : World) : option World :=
  match snapshot with
  | [] => Some w
  | up :: rest =>
      match invoke up v bitmask w with
      | Some w' => notify_snapshot invoke rest v bitmask w'
      | None => None
      end
  end.

Definition setValue_snapshot (invoke : Invoke) (newValue : JsValue)
    (bitmaskFactory : BitmaskFactory) (w : World) : option World :=
  if strict_eq newValue (value (hub w)) then Some w
  else
    let diff := to_int32 (bitmaskFactory (value (hub w)) newValue) in
    let snapshot := updaters w in
    let w1 := with_hub {| value := newValue;
                          _updaters := _updaters (hub w) |} w in
    notify_snapshot invoke snapshot newValue diff w1.

(** The hub is well formed when [_updaters] refers to an array of the store. *)
Definition wf (w : World) : Prop :=
  (_updaters (hub w) < length (arrays w))%nat.

(** ** noopContext *)

(** The methods of [noopContext]; its [value] is [undefined].  A method of
    the interface either completes or throws. *)
Definition noop_value : JsValue := JUndefined.

Definition noop_register (_ : updater) (w : World)
    : Completion (World * Returned) :=
  Normal (console_warn "Consumer used without a Provider" w, RetUndefined).

Definition noop_unregister (_ : updater) (w : World) : Completion World :=
  Normal w.

Definition noop_setValue (_ : JsValue) (_ : BitmaskFactory) (w : World)
    : Completion World :=
  Normal w.

(** What a Consumer gets from [this.context[key] || noopContext]. *)
Inductive IContextProvider : Type :=
| Provided (p : ContextProvider)
| noopContext.

Definition provider_value (p : IContextProvider) : JsValue :=
  match p with
  | Provided p => value p
  | noopContext => noop_value
  end.

(** ** Provider.render and the Consumer *)

(** [props.children]: absent, or the array of child nodes that preact's [h]
    builds. *)
Definition Children : Type := option (list JsValue).

(** [children && children[0]]: an array is truthy, and reading past its end
    gives [undefined]. *)
Definition first_child (children : Children) : JsValue :=
  match children with
  | None => JUndefined
  | Some cs => default JUndefined (cs !! 0%nat)
  end.

(** [children && children.length > 1] *)
Definition several_children (children : Children) : bool :=
  match children with
  | None => false
  | Some cs => (1 <? length cs)%nat
  end.

(** What a [render] method returns: an element built by
    [h(nodeName, null, children)], or a plain value. *)
Inductive Rendered : Type :=
| Element (nodeName : string) (children : list JsValue)
| Plain (v : JsValue).

Definition h (nodeName : string) (children : Children) : Rendered :=
  Element nodeName (default [] children).

(** [Provider.render()] *)
Definition Provider_render (children : Children) : Rendered :=
  if several_children children then h "span" children
  else
    let result := first_child children in
    Plain (js_or result JNull).

Record ConsumerProps : Type := {
  children : Children;
  render : JsValue;
  unstable_observedBits : optional number
}.

(** [ConsumerState<T>], which is [{ value: T }]. *)
Record ConsumerState : Type := {
  state_value : JsValue
}.

(** A Consumer instance; [enqueued] counts the re-renders that [setState]
    has asked the runtime for. *)
Record Consumer : Type := {
  props : ConsumerProps;
  state : ConsumerState;
  context : option ContextProvider;  (* [this.context[key]] *)
  enqueued : nat
}.

(** [getRenderer(props)]: [(children && children[0]) || render] *)
Definition getRenderer (p : ConsumerProps) : JsValue :=
  js_or (first_child (children p)) (render p).

(** [this.getContextProvider()] *)
Definition getContextProvider (ctx : option ContextProvider)
    : IContextProvider :=
  match ctx with
  | Some p => Provided p
  | None => noopContext
  end.

(** [this.setState({ value })] *)
Definition setState (v : JsValue) (c : Consumer) : Consumer :=
  {| props := props c; state := {| state_value := v |};
     context := context c; enqueued := S (enqueued c) |}.

(** The constructor; [value0] is the [value] argument of [createContext]. *)
Definition Consumer_constructor (value0 : JsValue) (p : ConsumerProps)
    (ctx : option ContextProvider) : Consumer :=
  {| props := p;
     state := {| state_value :=
                   js_or (provider_value (getContextProvider ctx)) value0 |};
     context := ctx;
     enqueued := 0%nat |}.

(** Calling [f(arg)]: caller functions are total and named by reference;
    calling anything else is a [TypeError]. *)
Definition js_call (apply : nat -> JsValue -> JsValue) (f arg : JsValue)
    : Completion JsValue :=
  match f with
  | JFun ref => Normal (apply ref arg)
  | _ => Throw "TypeError: not a function"
  end.

Definition both_defined : string :=
  "Both children and a render function are defined. Children will be used".
Definition no_function : string :=
  "Consumer is expecting a function as one and only child but didn't find any".

(** [Consumer.render()], with the console messages it adds to [out]. *)
Definition Consumer_render (apply : nat -> JsValue -> JsValue)
    (value0 : JsValue) (c : Consumer) (out : list string)
    : Completion JsValue * list string :=
  let render := render (props c) in
  let r := getRenderer (props c) in
  let out :=
    if truthy render && negb (strict_eq render r)
    then warn both_defined out else out in
  if is_function r
  then (js_call apply r (js_or (state_value (state c)) value0), out)
  else (Normal JUndefined, warn no_function out).

(** [observed] as [updateContext] computes it. *)
Definition observed_bits (p : ConsumerProps) : Z :=
  let observed :=
    match unstable_observedBits p with
    | Undefined | Null => MAX_SIGNED_31_BIT_INT
    | Given bits => bits
    end in
  js_bitor observed (of_Z 0).

(** [Consumer.updateContext(value, bitmask)] *)
Definition updateContext (c : Consumer) (v : JsValue) (bitmask : number)
    : Consumer :=
  let observed := observed_bits (props c) in
  if js_bitand (of_Z observed) bitmask =? 0 then c
  else setState v c.

(** ** How a world evolves *)

(** Arrays are only ever appended to, and new arrays get new references. *)
Definition arrays_grow (s s' : list (list updater)) : Prop :=
  forall a l, s !! a = Some l -> exists l', s' !! a = Some (l ++ l').

(** [steps w new w']: [w'] comes after [w] in a run that is back at the
    call-stack depth of [w] and has recorded the calls [new] meanwhile. *)
Definition steps (w : World) (new : list Call) (w' : World) : Prop :=
  arrays_grow (arrays w) (arrays w') /\
  (wf w -> wf w') /\
  depth w' = depth w /\
  calls w' = calls w ++ new /\
  Forall (fun c => (depth w <= at_depth c)%nat) new /\
  console w' = console w.

(** What the methods rely on when they call an updater: the call itself is
    recorded first, at the caller's depth, and whatever the updater's code
    causes is recorded deeper. *)
Definition invoke_ok (invoke : Invoke)
    : Prop :=
  forall u v d w w',
    wf w ->
    invoke u v d w = Some w' ->
    exists rest,
      steps w (call_of v d (depth w) u :: rest) w' /\
      Forall (fun c => (depth w < at_depth c)%nat) rest.

(** Updater code in which nothing registers [u]. *)
Definition never_registers (u : updater) (body : Body) : Prop :=
  forall w u' v d, CallRegister u ∉ body w u' v d.

(** Updater code that only removes subscribers, or adds subscribers whose own
    code leaves the hub alone. *)
Definition tame (body : Body) : Prop :=
  forall w u v d op,
    op ∈ body w u v d ->
    match op with
    | CallUnregister _ => True
    | CallRegister u' => forall w' v' d', body w' u' v' d' = []
    | CallSetValue _ _ => False
    end.

(** ** Small worlds and updaters to run the code on *)

(** A hub holding [0] with updaters 1, 2 and 3 subscribed, in that order. *)
Definition three_subscribers : World :=
  {| arrays := [[1; 2; 3]%nat];
     hub := {| value := JNum (of_Z 0); _updaters := 0%nat |};
     calls := []; console := []; depth := 0%nat |}.

(** Updater 1 reacts to a change by unregistering updater 2 and registering
    updater 4; the other updaters leave the hub alone. *)
Definition meddling : Body :=
  fun _ u _ bitmask =>
    if Nat.eqb u 1 && negb (bitmask =? 0)
    then [CallUnregister 2%nat; CallRegister 4%nat]
    else [].

(** The default factory of [createContext]. *)
Definition defaultBitmaskFactory : BitmaskFactory :=
  fun _ _ => MAX_SIGNED_31_BIT_INT.

(** A factory that reports bit 30. *)
Definition bit30_factory : BitmaskFactory :=
  fun _ _ => of_Z 1073741824.

(** A factory that reports a number that grew as bit 0 and any other change
    as bit 1: [(a, b) => a === b ? 0 : (a < b ? 1 : 2)] on numbers. *)
Definition growth_factory : BitmaskFactory :=
  fun a b =>
    if strict_eq a b then of_Z 0
    else
      match a, b with
      | JNum (Num p), JNum (Num q) =>
          if Qle_bool q p then of_Z 2 else of_Z 1
      | _, _ => of_Z 2
      end.

(** A hub holding 10 to which the updater 7 alone is subscribed, and the
    Consumer behind that updater, which is interested in bit 0 only. *)
Definition one_subscriber : World :=
  {| arrays := [[7%nat]];
     hub := {| value := JNum (of_Z 10); _updaters := 0%nat |};
     calls := []; console := []; depth := 0%nat |}.

Definition growth_consumer : Consumer :=
  {| props := {| children := Some [JFun 1]; render := JUndefined;
                 unstable_observedBits := Given (of_Z 1) |};
     state := {| state_value := JNum (of_Z 10) |};
     context := Some (hub one_subscriber);
     enqueued := 0%nat |}.

(** Caller functions that return their argument. *)
Definition identity_functions : nat -> JsValue -> JsValue :=
  fun _ arg => arg.

(** ** createContext *)

(** [ids++] on the module's counter, a double: one is added exactly below
    2^53, and from 2^53 on adding one no longer changes the number. *)
Definition ids_after (ids : N) : N :=
  if (ids <? 2 ^ 53)%N then (ids + 1)%N else ids.

(** [`_preactContextProvider-${ids}`]: an integer below 10^21 is printed in
    decimal. *)
Definition context_key (ids : N) : string :=
  "_preactContextProvider-" +:+ pretty ids.

(** What the classes returned by [createContext] close over. *)
Record Context : Type := {
  key : string;
  default_value : JsValue;
  factory : BitmaskFactory
}.

(** [createContext(value, bitmaskFactory = defaultBitmaskFactory)], with the
    counter [ids] before and after the call. *)
Definition createContext (value0 : JsValue)
    (bitmaskFactory : option BitmaskFactory) (ids : N) : Context * N :=
  ({| key := context_key ids;
      default_value := value0;
      factory := default defaultBitmaskFactory bitmaskFactory |},
   ids_after ids).

(** Successive calls of [createContext], one for each pair of arguments. *)
Fixpoint createContexts (args : list (JsValue * option BitmaskFactory))
    (ids : N) : list Context :=
  match args with
  | [] => []
  | (value0, bitmaskFactory) :: rest =>
      let (cx, ids') := createContext value0 bitmaskFactory ids in
      cx :: createContexts rest ids'
  end.

(** ** The Provider and the Consumer in a page *)



(** The only updaters the module ever registers are Consumers'
    [updateContext], which calls [setState] and leaves the hub alone. *)
Definition consumer_updaters : Invoke := call_updater inert 1.

(** [Provider.componentDidUpdate()]:
    [this._contextProvider.setValue(this.props.value, bitmaskFactory)] *)
Definition Provider_componentDidUpdate (cx : Context) (props_value : JsValue)
    (w : World) : option World :=
  setValue consumer_updaters props_value (factory cx) w.

(** The Provider's updates for the values it receives one after another. *)
Fixpoint Provider_updates (cx : Context) (values : list JsValue) (w : World)
    : option World :=
  match values with
  | [] => Some w
  | v :: rest =>
      match Provider_componentDidUpdate cx v w with
      | Some w' => Provider_updates cx rest w'
      | None => None
      end
  end.

(** Of the values a Provider receives, those that differ ([!==]) from the one
    before, each with the value it replaces. *)
Fixpoint changes (current : JsValue) (values : list JsValue)
    : list (JsValue * JsValue) :=
  match values with
  | [] => []
  | v :: rest =>
      if strict_eq v current then changes current rest
      else (current, v) :: changes v rest
  end.

(** [Consumer.shouldComponentUpdate(nextProps, nextState)] *)
Definition shouldComponentUpdate (c : Consumer) (nextProps : ConsumerProps)
    (nextState : ConsumerState) : bool :=
  negb (strict_eq (state_value (state c)) (state_value nextState))
  || negb (strict_eq (getRenderer (props c)) (getRenderer nextProps)).

(** What the recorded calls of updater [u] do to the Consumer whose
    [updateContext] that updater is. *)
Fixpoint observe (u : updater) (l : list Call) (c : Consumer) : Consumer :=
  match l with
  | [] => c
  | call :: rest =>
      observe u rest
        (if Nat.eqb (callee call) u
         then updateContext c (arg_value call) (of_Z (arg_bitmask call))
         else c)
  end.

(** Several Providers side by side.  Each has its own hub, and no array of
    one hub is ever reachable from another, so each hub is kept in a world of
    its own; the console is the page's. *)
Record Page : Type := {
  hubs : list World;            (* provider reference |-> its hub *)
  page_console : list string
}.

(** A method of the provider at reference [i]. *)
Definition on_hub (i : nat) (method : World -> option World) (pg : Page)
    : option Page :=
  match hubs pg !! i with
  | Some w =>
      match method w with
      | Some w' => Some {| hubs := <[i := w']> (hubs pg);
                           page_console := page_console pg |}
      | None => None
      end
  | None => None
  end.

(** [(provider || noopContext).register(updater)] *)
Definition provider_register (provider : option nat) (u : updater)
    (pg : Page) : option Page :=
  match provider with
  | Some i => on_hub i (fun w => fst <$> register consumer_updaters u w) pg
  | None =>
      Some {| hubs := hubs pg;
              page_console :=
                warn "Consumer used without a Provider" (page_console pg) |}
  end.

(** [(provider || noopContext).unregister(updater)] *)
Definition provider_unregister (provider : option nat) (u : updater)
    (pg : Page) : option Page :=
  match provider with
  | Some i => on_hub i (fun w => Some (unregister u w)) pg
  | None => Some pg
  end.

(** [Consumer.componentDidMount()], [ctx] being [this.context[key]] and [u]
    the identity of [this.updateContext]. *)
Definition Consumer_componentDidMount (ctx : option nat) (u : updater)
    (pg : Page) : option Page :=
  provider_register ctx u pg.

(** [Consumer.componentWillUnmount()] *)
Definition Consumer_componentWillUnmount (ctx : option nat) (u : updater)
    (pg : Page) : option Page :=
  provider_unregister ctx u pg.

(** [Consumer.componentDidUpdate(_, __, prevCtx)], [prevCtx] being
    [prevCtx[key]]. *)
Definition Consumer_componentDidUpdate (prevCtx ctx : option nat)
    (u : updater) (pg : Page) : option Page :=
  if decide (prevCtx = ctx) then Some pg
  else
    match provider_unregister prevCtx u pg with
    | Some pg1 => Consumer_componentDidMount ctx u pg1
    | None => None
    end.

(** A mounted Consumer's updates as its context goes through [ctxs], from
    [prevCtx]. *)
Fixpoint Consumer_updates (prevCtx : option nat) (ctxs : list (option nat))
    (u : updater) (pg : Page) : option Page :=
  match ctxs with
  | [] => Some pg
  | ctx :: rest =>
      match Consumer_componentDidUpdate prevCtx ctx u pg with
      | Some pg' => Consumer_updates ctx rest u pg'
      | None => None
      end
  end.

(** The subscriber list of the provider at [i]. *)
Definition page_updaters (i : nat) (pg : Page) : list updater :=
  default [] (updaters <$> hubs pg !! i).

(** A context names a provider of the page, or none. *)
Definition in_page (pg : Page) (ctx : option nat) : Prop :=
  match ctx with
  | Some i => (i < length (hubs pg))%nat
  | None => True
  end.

(** The calls recorded by the provider at [i], and the value it holds. *)
Definition page_calls (i : nat) (pg : Page) : list Call :=
  default [] (calls <$> hubs pg !! i).

Definition page_value (i : nat) (pg : Page) : option JsValue :=
  (fun w => value (hub w)) <$> hubs pg !! i.

(** How many times a Consumer whose context goes from [prevCtx] through
    [ctxs] comes to be without a Provider. *)
Fixpoint losses (prevCtx : option nat) (ctxs : list (option nat)) : nat :=
  match ctxs with
  | [] => 0
  | ctx :: rest =>
      ((if decide (prevCtx = ctx) then 0
        else match ctx with Some _ => 0 | None => 1 end)
       + losses ctx rest)%nat
  end.

(** [attached base u cur n pg]: the page [pg] is the page [base] with updater
    [u] subscribed to the provider [cur], last in its list, and to no other;
    the values are those of [base]; the calls made since are calls of [u]
    with descriptor 0; and the console has [n] more warnings. *)
Definition attached (base : Page) (u : updater) (cur : option nat) (n : nat)
    (pg : Page) : Prop :=
  length (hubs pg) = length (hubs base) /\
  Forall wf (hubs pg) /\
  page_console pg
  = page_console base ++ replicate n "Consumer used without a Provider" /\
  forall k,
    page_updaters k pg
    = page_updaters k base ++ (if decide (cur = Some k) then [u] else []) /\
    page_value k pg = page_value k base /\
    exists extra,
      page_calls k pg = page_calls k base ++ extra /\
      Forall (fun c => callee c = u /\ arg_bitmask c = 0) extra.

(** The value of the last call made to updater [u], if any. *)
Definition last_told (u : updater) (l : list Call) : option JsValue :=
  arg_value <$> last (filter (fun c => callee c = u) l).

(** A page with two Providers, holding 10 and 20, the second with updater 3
    subscribed. *)
Definition two_providers : Page :=
  {| hubs := [new_ContextProvider (JNum (of_Z 10));
              {| arrays := [[3%nat]];
                 hub := {| value := JNum (of_Z 20); _updaters := 0%nat |};
                 calls := []; console := []; depth := 0%nat |}];
     page_console := [] |}.

(** * Properties *)

(** ** Numbers *)

Lemma wrap32_range (z : Z) : int32 (wrap32 z).
Proof.
  unfold int32, wrap32.
  pose proof (Z.mod_pos_bound z (2 ^ 32) ltac:(lia)) as Hm.
  destruct (Z.ltb_spec (z mod 2 ^ 32) (2 ^ 31)); lia.
Qed.

Lemma wrap32_id (z : Z) : int32 z -> wrap32 z = z.
Proof.
  unfold int32, wrap32. intros Hz.
  destruct (Z.ltb_spec (z mod 2 ^ 32) (2 ^ 31)) as [Hlt | Hge].
  - destruct (Z_lt_le_dec z 0) as [Hneg | Hpos].
    + replace z with (z + 2 ^ 32 - 1 * 2 ^ 32) in Hlt at 1 by lia.
      rewrite Zminus_mod, Z_mod_mult, Z.sub_0_r, Z.mod_mod in Hlt by lia.
      rewrite Z.mod_small in Hlt by lia. lia.
    + apply Z.mod_small. lia.
  - destruct (Z_lt_le_dec z 0) as [Hneg | Hpos].
    + replace z with (z + 2 ^ 32 - 1 * 2 ^ 32) at 1 by lia.
      rewrite Zminus_mod, Z_mod_mult, Z.sub_0_r, Z.mod_mod by lia.
      rewrite Z.mod_small by lia. lia.
    + rewrite Z.mod_small in Hge by lia. lia.
Qed.

Lemma to_int32_range (n : number) : int32 (to_int32 n).
Proof.
  destruct n; simpl; try apply wrap32_range; unfold int32; lia.
Qed.

Lemma to_int32_of_Z (z : Z) : to_int32 (of_Z z) = wrap32 z.
Proof.
  unfold to_int32, of_Z, inject_Z. simpl. now rewrite Z.quot_1_r.
Qed.

Lemma js_bitor_zero (n : number) : js_bitor n (of_Z 0) = to_int32 n.
Proof.
  unfold js_bitor. rewrite to_int32_of_Z.
  change (wrap32 0) with 0. apply Z.lor_0_r.
Qed.

Lemma int31_int32 (z : Z) : int31 z -> int32 z.
Proof. unfold int31, int32. lia. Qed.

(** ** The store of arrays *)

Lemma array_get_lookup (a : nat) (w : World) (l : list updater) :
  arrays w !! a = Some l -> array_get a w = l.
Proof. unfold array_get. now intros ->. Qed.

Lemma wf_lookup (w : World) :
  wf w -> arrays w !! _updaters (hub w) = Some (updaters w).
Proof.
  unfold wf, updaters, array_get. intros Hwf.
  destruct (lookup_lt_is_Some_2 (arrays w) _ Hwf) as [l Hl].
  now rewrite Hl.
Qed.

Lemma updaters_push (u : updater) (w : World) :
  wf w ->
  updaters (array_push (_updaters (hub w)) u w) = updaters w ++ [u].
Proof.
  intros Hwf. pose proof (wf_lookup w Hwf) as Hl.
  unfold updaters at 1, array_get, array_push. simpl.
  now rewrite list_lookup_alter_eq, Hl.
Qed.

Lemma updaters_unregister (u : updater) (w : World) :
  updaters (unregister u w) = filter (fun i => i ≠ u) (updaters w).
Proof.
  unfold unregister, updaters at 1, array_get, array_new. simpl.
  rewrite lookup_app_r by lia.
  now rewrite Nat.sub_diag.
Qed.

Lemma unregister_absent (u : updater) (w : World) :
  u ∉ updaters (unregister u w).
Proof.
  rewrite updaters_unregister. intros Hin.
  apply list_elem_of_filter in Hin. now destruct Hin.
Qed.

Lemma arrays_grow_refl (s : list (list updater)) : arrays_grow s s.
Proof. intros a l Hl. exists []. now rewrite app_nil_r. Qed.

Lemma arrays_grow_trans (s1 s2 s3 : list (list updater)) :
  arrays_grow s1 s2 -> arrays_grow s2 s3 -> arrays_grow s1 s3.
Proof.
  intros H12 H23 a l Hl.
  destruct (H12 a l Hl) as [l1 Hl1].
  destruct (H23 a _ Hl1) as [l2 Hl2].
  exists (l1 ++ l2). now rewrite app_assoc.
Qed.

Lemma arrays_grow_push (a : nat) (u : updater) (s : list (list updater)) :
  arrays_grow s (alter (fun l => l ++ [u]) a s).
Proof.
  intros b l Hl. destruct (decide (a = b)) as [-> | Hne].
  - exists [u]. now rewrite list_lookup_alter_eq, Hl.
  - exists []. now rewrite list_lookup_alter_ne, app_nil_r.
Qed.

Lemma arrays_grow_new (l0 : list updater) (s : list (list updater)) :
  arrays_grow s (s ++ [l0]).
Proof.
  intros a l Hl. exists []. rewrite app_nil_r.
  now apply lookup_app_l_Some.
Qed.

(** ** Steps *)

Lemma steps_refl (w : World) : steps w [] w.
Proof.
  repeat split; auto using arrays_grow_refl.
  now rewrite app_nil_r.
Qed.

Lemma steps_trans (w1 w2 w3 : World) (n1 n2 : list Call) :
  steps w1 n1 w2 -> steps w2 n2 w3 -> steps w1 (n1 ++ n2) w3.
Proof.
  intros (Ha & Hw & Hd & Hc & Hf & Ho) (Ha' & Hw' & Hd' & Hc' & Hf' & Ho').
  repeat split.
  - eauto using arrays_grow_trans.
  - auto.
  - congruence.
  - now rewrite Hc', Hc, app_assoc.
  - apply Forall_app; split; [assumption |].
    now rewrite Hd in Hf'.
  - congruence.
Qed.

Lemma steps_push (u : updater) (w : World) :
  steps w [] (array_push (_updaters (hub w)) u w).
Proof.
  unfold array_push. repeat split; simpl.
  - apply arrays_grow_push.
  - unfold wf. simpl. now rewrite length_alter.
  - now rewrite app_nil_r.
  - constructor.
Qed.

Lemma steps_unregister (u : updater) (w : World) :
  steps w [] (unregister u w).
Proof.
  unfold unregister, array_new. repeat split; simpl.
  - apply arrays_grow_new.
  - intros _. unfold wf. simpl. rewrite length_app. simpl. lia.
  - now rewrite app_nil_r.
  - constructor.
Qed.

Lemma steps_store (v : JsValue) (w : World) :
  steps w [] (with_hub {| value := v; _updaters := _updaters (hub w) |} w).
Proof.
  repeat split; simpl; auto using arrays_grow_refl.
  now rewrite app_nil_r.
Qed.

Lemma steps_new_calls (w w' : World) (new : list Call) :
  steps w new w' -> new_calls w w' = new.
Proof.
  intros (_ & _ & _ & Hc & _). unfold new_calls.
  now rewrite Hc, drop_app_length.
Qed.

(** ** Calls made at a depth *)

Lemma made_at_app (d : nat) (l1 l2 : list Call) :
  made_at d (l1 ++ l2) = made_at d l1 ++ made_at d l2.
Proof. apply filter_app. Qed.

Lemma made_at_deeper (d : nat) (l : list Call) :
  Forall (fun c => (d < at_depth c)%nat) l -> made_at d l = [].
Proof.
  unfold made_at. induction 1 as [| c l Hc _ IH]; [reflexivity |].
  rewrite filter_cons_False by lia. exact IH.
Qed.

Lemma made_at_call (d : nat) (v : JsValue) (b : Z) (u : updater)
    (rest : list Call) :
  Forall (fun c => (d < at_depth c)%nat) rest ->
  made_at d (call_of v b d u :: rest) = [call_of v b d u].
Proof.
  intros Hrest. unfold made_at.
  rewrite filter_cons_True by reflexivity.
  fold (made_at d rest). now rewrite made_at_deeper.
Qed.

(** ** The methods, for any well-behaved way of calling updaters *)

Section MethodFacts.

Variable invoke : Invoke.
Hypothesis invoke_steps : invoke_ok invoke.

(** The live iteration of [forEach] visits the elements the array had when
    the iteration started, and makes one call for each. *)
Lemma forEach_from_steps (a : nat) (l : list updater) (v : JsValue) (d : Z) :
  forall (n k : nat) (w w' : World) (ext : list updater),
    wf w ->
    arrays w !! a = Some (l ++ ext) ->
    (k + n <= length l)%nat ->
    forEach_from a (fun up => invoke up v d) k n w = Some w' ->
    exists new,
      steps w new w' /\
      made_at (depth w) new
      = map (call_of v d (depth w)) (take n (drop k l)).
Proof.
  induction n as [| n IH]; intros k w w' ext Hwf Ha Hk Hrun; simpl in Hrun.
  - injection Hrun as <-. exists []. split; [apply steps_refl |].
    now rewrite take_0.
  - assert (Hup : exists up, l !! k = Some up)
      by (apply lookup_lt_is_Some_2; lia).
    destruct Hup as [up Hup].
    rewrite (array_get_lookup _ _ _ Ha) in Hrun.
    rewrite (lookup_app_l_Some _ _ _ _ Hup) in Hrun.
    destruct (invoke up v d w) as [w1 |] eqn:Hcall; [| discriminate].
    destruct (invoke_steps _ _ _ _ _ Hwf Hcall) as (rest & Hs1 & Hdeep).
    pose proof Hs1 as (Hgrow & Hwf1 & Hd1 & _).
    destruct (Hgrow _ _ Ha) as [ext' Ha1].
    rewrite <- app_assoc in Ha1.
    assert (Hk1 : (S k + n <= length l)%nat) by lia.
    destruct (IH (S k) w1 w' _ (Hwf1 Hwf) Ha1 Hk1 Hrun)
      as (new & Hs2 & Hmade).
    exists ((call_of v d (depth w) up :: rest) ++ new). split.
    + eapply steps_trans; eassumption.
    + rewrite made_at_app, made_at_call by assumption.
      rewrite Hd1 in Hmade. rewrite Hmade.
      rewrite (drop_S _ _ _ Hup). reflexivity.
Qed.

(** The same iteration as a plain traversal of that snapshot. *)
Lemma forEach_from_snapshot (a : nat) (l : list updater) (v : JsValue) (d : Z) :
  forall (n k : nat) (w : World) (ext : list updater),
    wf w ->
    arrays w !! a = Some (l ++ ext) ->
    (k + n <= length l)%nat ->
    forEach_from a (fun up => invoke up v d) k n w
    = notify_snapshot invoke (take n (drop k l)) v d w.
Proof.
  induction n as [| n IH]; intros k w ext Hwf Ha Hk; simpl.
  - reflexivity.
  - assert (Hup : exists up, l !! k = Some up)
      by (apply lookup_lt_is_Some_2; lia).
    destruct Hup as [up Hup].
    rewrite (array_get_lookup _ _ _ Ha).
    rewrite (lookup_app_l_Some _ _ _ _ Hup).
    rewrite (drop_S _ _ _ Hup). simpl.
    destruct (invoke up v d w) as [w1 |] eqn:Hcall; [| reflexivity].
    destruct (invoke_steps _ _ _ _ _ Hwf Hcall) as (rest & Hs1 & _).
    destruct Hs1 as (Hgrow & Hwf1 & _).
    destruct (Hgrow _ _ Ha) as [ext' Ha1].
    rewrite <- app_assoc in Ha1.
    apply (IH (S k) w1 _ (Hwf1 Hwf) Ha1). lia.
Qed.

Lemma setValue_steps (newValue : JsValue) (f : BitmaskFactory) (w w' : World) :
  wf w ->
  strict_eq newValue (value (hub w)) = false ->
  setValue invoke newValue f w = Some w' ->
  exists new,
    steps w new w' /\
    made_at (depth w) new
    = map (call_of newValue (to_int32 (f (value (hub w)) newValue)) (depth w))
          (updaters w).
Proof.
  intros Hwf Hne Hrun. unfold setValue in Hrun. rewrite Hne in Hrun.
  rewrite js_bitor_zero in Hrun. unfold forEach in Hrun.
  set (w1 := with_hub _ w) in Hrun.
  assert (Ha : arrays w1 !! _updaters (hub w1) = Some (updaters w ++ []))
    by (rewrite app_nil_r; apply (wf_lookup w Hwf)).
  rewrite (array_get_lookup _ _ _ Ha), length_app, Nat.add_0_r in Hrun.
  destruct (forEach_from_steps _ _ _ _ _ 0%nat w1 w' [] Hwf Ha
              (Nat.le_refl _) Hrun) as (new & Hs & Hmade).
  exists new. split.
  - apply (steps_trans _ _ _ [] new (steps_store newValue w) Hs).
  - change (depth w1) with (depth w) in Hmade. rewrite Hmade.
    now rewrite drop_0, firstn_all.
Qed.

Lemma setValue_is_snapshot (newValue : JsValue) (f : BitmaskFactory)
    (w : World) :
  wf w ->
  setValue invoke newValue f w = setValue_snapshot invoke newValue f w.
Proof.
  intros Hwf. unfold setValue, setValue_snapshot.
  destruct (strict_eq newValue (value (hub w))); [reflexivity |].
  rewrite js_bitor_zero. unfold forEach.
  set (w1 := with_hub _ w).
  assert (Ha : arrays w1 !! _updaters (hub w1) = Some (updaters w ++ []))
    by (rewrite app_nil_r; apply (wf_lookup w Hwf)).
  rewrite (array_get_lookup _ _ _ Ha), length_app, Nat.add_0_r.
  rewrite (forEach_from_snapshot _ _ _ _ _ 0%nat w1 [] Hwf Ha (Nat.le_refl _)).
  now rewrite drop_0, firstn_all.
Qed.

Lemma register_steps (u : updater) (w w' : World) (r : Returned) :
  wf w ->
  register invoke u w = Some (w', r) ->
  r = RetClosure (unregister u) /\
  exists rest,
    steps w (call_of (value (hub w)) 0 (depth w) u :: rest) w' /\
    Forall (fun c => (depth w < at_depth c)%nat) rest.
Proof.
  unfold register. intros Hwf Hrun.
  destruct (invoke u _ 0 _) as [w2 |] eqn:Hcall; [| discriminate].
  injection Hrun as <- <-. split; [reflexivity |].
  pose proof (steps_push u w) as Hpush.
  pose proof Hpush as (_ & Hwf1 & _).
  destruct (invoke_steps _ _ _ _ _ (Hwf1 Hwf) Hcall) as (rest & Hs & Hdeep).
  exists rest. split; [| exact Hdeep].
  apply (steps_trans _ _ _ [] _ Hpush Hs).
Qed.

Lemma run_op_steps (op : Op) (w w' : World) :
  wf w -> run_op invoke op w = Some w' -> exists new, steps w new w'.
Proof.
  intros Hwf Hrun. destruct op as [u | u | v f]; simpl in Hrun.
  - destruct (register invoke u w) as [[w2 r] |] eqn:Hreg; [| discriminate].
    injection Hrun as <-.
    destruct (register_steps _ _ _ _ Hwf Hreg) as (_ & rest & Hs & _). eauto.
  - injection Hrun as <-. eauto using steps_unregister.
  - destruct (strict_eq v (value (hub w))) eqn:Heq.
    + unfold setValue in Hrun. rewrite Heq in Hrun. injection Hrun as <-.
      eauto using steps_refl.
    + destruct (setValue_steps _ _ _ _ Hwf Heq Hrun) as (new & Hs & _). eauto.
Qed.

Lemma run_ops_steps (ops : list Op) :
  forall w w', wf w -> run_ops invoke ops w = Some w' ->
  exists new, steps w new w'.
Proof.
  induction ops as [| op ops IH]; intros w w' Hwf Hrun; simpl in Hrun.
  - injection Hrun as <-. eauto using steps_refl.
  - destruct (run_op invoke op w) as [w1 |] eqn:Hop; [| discriminate].
    destruct (run_op_steps _ _ _ Hwf Hop) as (n1 & Hs1).
    pose proof Hs1 as (_ & Hwf1 & _).
    destruct (IH _ _ (Hwf1 Hwf) Hrun) as (n2 & Hs2).
    eauto using steps_trans.
Qed.

End MethodFacts.

(** ** Calling updaters *)

Lemma call_updater_ok (body : Body) (fuel : nat) :
  invoke_ok (call_updater body fuel).
Proof.
  induction fuel as [| fuel IH]; intros u v d w w' Hwf Hrun; simpl in Hrun.
  - discriminate.
  - set (here := {| callee := u; arg_value := v; arg_bitmask := d;
                    at_depth := depth w |}) in Hrun.
    set (w1 := with_depth (S (depth w)) (with_calls (calls w ++ [here]) w))
      in Hrun.
    destruct (run_ops _ _ w1) as [w2 |] eqn:Hops; [| discriminate].
    injection Hrun as <-.
    destruct (run_ops_steps _ IH _ w1 w2 Hwf Hops)
      as (new & Hgrow & Hwf2 & Hd & Hc & Hf & Ho).
    exists new. repeat split; simpl.
    + exact Hgrow.
    + intros _. apply (Hwf2 Hwf).
    + rewrite Hc. simpl. now rewrite <- app_assoc.
    + constructor; [simpl; lia |].
      eapply Forall_impl; [exact Hf |]. simpl. intros c Hle. lia.
    + exact Ho.
    + eapply Forall_impl; [exact Hf |]. simpl. intros c Hle. lia.
Qed.

Lemma call_updater_S (body : Body) (fuel : nat) (u : updater) (v : JsValue)
    (d : Z) (w : World) :
  call_updater body (S fuel) u v d w
  = let w1 := with_depth (S (depth w))
                (with_calls (calls w ++ [call_of v d (depth w) u]) w) in
    match run_ops (call_updater body fuel) (body w1 u v d) w1 with
    | Some w2 => Some (with_depth (depth w) w2)
    | None => None
    end.
Proof. reflexivity. Qed.

(** An updater whose code leaves the hub alone returns at once, and all that
    has happened is that its call was recorded. *)
Lemma call_updater_inert (body : Body) (fuel : nat) (u : updater)
    (v : JsValue) (d : Z) (w : World) :
  (forall w1 v1 d1, body w1 u v1 d1 = []) ->
  call_updater body (S fuel) u v d w
  = Some (with_calls (calls w ++ [call_of v d (depth w) u]) w).
Proof.
  intros Hinert. simpl. rewrite Hinert. reflexivity.
Qed.

Lemma notify_inert (body : Body) (fuel : nat) (v : JsValue) (d : Z) :
  forall (l : list updater) (w : World),
    (forall u, u ∈ l -> forall w1 v1 d1, body w1 u v1 d1 = []) ->
    notify_snapshot (call_updater body (S fuel)) l v d w
    = Some (with_calls (calls w ++ map (call_of v d (depth w)) l) w).
Proof.
  induction l as [| u l IH]; intros w Hinert.
  - simpl. rewrite app_nil_r. now destruct w.
  - cbn [notify_snapshot].
    rewrite call_updater_inert by (apply Hinert; left).
    rewrite IH by (intros u' Hu'; apply Hinert; now right).
    simpl. now rewrite <- app_assoc.
Qed.

(** Tame updater code always returns, two levels of fuel being enough. *)
Lemma run_ops_tame (body : Body) (fuel : nat) :
  tame body ->
  forall (ops : list Op) (w0 : World) (u : updater) (v : JsValue) (d : Z),
    (forall op, op ∈ ops -> op ∈ body w0 u v d) ->
    forall w, exists w', run_ops (call_updater body (S fuel)) ops w = Some w'.
Proof.
  intros Htame ops w0 u v d. induction ops as [| op ops IH]; intros Hsub w.
  - simpl. eauto.
  - assert (Hop : op ∈ body w0 u v d) by (apply Hsub; left).
    specialize (IH (fun op' H => Hsub op' (list_elem_of_further _ _ _ H))).
    pose proof (Htame _ _ _ _ _ Hop) as Hkind.
    destruct op as [u' | u' | v' f']; cbn [run_ops run_op].
    + unfold register. rewrite call_updater_inert by exact Hkind.
      simpl. apply IH.
    + apply IH.
    + contradiction.
Qed.

Lemma call_updater_tame (body : Body) (fuel : nat) (u : updater)
    (v : JsValue) (d : Z) (w : World) :
  tame body ->
  exists w', call_updater body (S (S fuel)) u v d w = Some w'.
Proof.
  intros Htame. rewrite call_updater_S. cbv zeta.
  match goal with
  | |- context [run_ops _ (body ?w1 u v d) ?w2] =>
      destruct (run_ops_tame body fuel Htame (body w1 u v d) w1 u v d
                  (fun _ H => H) w2) as [w' Hw']
  end.
  rewrite Hw'. eauto.
Qed.

Lemma notify_total (invoke : Invoke)
    (v : JsValue) (d : Z) :
  (forall u w, exists w', invoke u v d w = Some w') ->
  forall (l : list updater) (w : World),
    exists w', notify_snapshot invoke l v d w = Some w'.
Proof.
  intros Htotal. induction l as [| u l IH]; intros w; simpl.
  - eauto.
  - destruct (Htotal u w) as [w1 ->]. apply IH.
Qed.

(** ** A callback that is not subscribed is not called *)

Section Absent.

Variable u : updater.
Variable invoke : Invoke.
Hypothesis invoke_steps : invoke_ok invoke.

(** Calling another updater neither brings [u] back nor calls it. *)
Hypothesis invoke_quiet :
  forall u' v d w w',
    u' ≠ u -> wf w -> u ∉ updaters w ->
    invoke u' v d w = Some w' ->
    (u ∉ updaters w') /\ Forall (fun c => callee c ≠ u) (new_calls w w').

Lemma forEach_from_quiet (a : nat) (l : list updater) (v : JsValue) (d : Z) :
  u ∉ l ->
  forall (n k : nat) (w w' : World) (ext : list updater),
    wf w ->
    arrays w !! a = Some (l ++ ext) ->
    (k + n <= length l)%nat ->
    u ∉ updaters w ->
    forEach_from a (fun up => invoke up v d) k n w = Some w' ->
    (u ∉ updaters w') /\ Forall (fun c => callee c ≠ u) (new_calls w w').
Proof.
  intros Hl. induction n as [| n IH]; intros k w w' ext Hwf Ha Hk Hu Hrun.
  - simpl in Hrun. injection Hrun as <-. split; [exact Hu |].
    unfold new_calls. rewrite drop_all. constructor.
  - pose proof (forEach_from_steps _ invoke_steps _ _ _ _ _ _ _ _ _
                  Hwf Ha Hk Hrun) as (new & Hs & _).
    simpl in Hrun.
    assert (Hup : exists up, l !! k = Some up)
      by (apply lookup_lt_is_Some_2; lia).
    destruct Hup as [up Hup].
    rewrite (array_get_lookup _ _ _ Ha) in Hrun.
    rewrite (lookup_app_l_Some _ _ _ _ Hup) in Hrun.
    destruct (invoke up v d w) as [w1 |] eqn:Hcall; [| discriminate].
    assert (Hne : up ≠ u).
    { intros ->. apply Hl. eapply list_elem_of_lookup_2. exact Hup. }
    destruct (invoke_quiet _ _ _ _ _ Hne Hwf Hu Hcall) as (Hu1 & Hq1).
    destruct (invoke_steps _ _ _ _ _ Hwf Hcall) as (rest & Hs1 & _).
    pose proof Hs1 as (Hgrow & Hwf1 & _ & Hc1 & _).
    destruct (Hgrow _ _ Ha) as [ext' Ha1].
    rewrite <- app_assoc in Ha1.
    assert (Hk1 : (S k + n <= length l)%nat) by lia.
    destruct (IH (S k) w1 w' _ (Hwf1 Hwf) Ha1 Hk1 Hu1 Hrun) as (Hu' & Hq2).
    split; [exact Hu' |].
    destruct (forEach_from_steps _ invoke_steps _ _ _ _ _ _ _ _ _
                (Hwf1 Hwf) Ha1 Hk1 Hrun) as (new2 & Hs2 & _).
    rewrite (steps_new_calls _ _ _ (steps_trans _ _ _ _ _ Hs1 Hs2)).
    rewrite (steps_new_calls _ _ _ Hs1) in Hq1.
    rewrite (steps_new_calls _ _ _ Hs2) in Hq2.
    apply Forall_app. now split.
Qed.

Lemma setValue_quiet (newValue : JsValue) (f : BitmaskFactory) (w w' : World) :
  wf w -> u ∉ updaters w ->
  setValue invoke newValue f w = Some w' ->
  (u ∉ updaters w') /\ Forall (fun c => callee c ≠ u) (new_calls w w').
Proof.
  intros Hwf Hu Hrun. unfold setValue in Hrun.
  destruct (strict_eq newValue (value (hub w))).
  - injection Hrun as <-. split; [exact Hu |].
    unfold new_calls. rewrite drop_all. constructor.
  - unfold forEach in Hrun. set (w1 := with_hub _ w) in Hrun.
    assert (Ha : arrays w1 !! _updaters (hub w1) = Some (updaters w ++ []))
      by (rewrite app_nil_r; apply (wf_lookup w Hwf)).
    rewrite (array_get_lookup _ _ _ Ha), length_app, Nat.add_0_r in Hrun.
    apply (forEach_from_quiet _ _ _ _ Hu _ 0%nat w1 w' [] Hwf Ha
             (Nat.le_refl _) Hu Hrun).
Qed.

Lemma run_op_quiet (op : Op) (w w' : World) :
  op ≠ CallRegister u ->
  wf w -> u ∉ updaters w ->
  run_op invoke op w = Some w' ->
  (u ∉ updaters w') /\ Forall (fun c => callee c ≠ u) (new_calls w w').
Proof.
  intros Hop Hwf Hu Hrun. destruct op as [u' | u' | v f]; simpl in Hrun.
  - assert (Hne : u' ≠ u) by congruence.
    unfold register in Hrun.
    destruct (invoke u' _ 0 _) as [w2 |] eqn:Hcall; [| discriminate].
    simpl in Hrun. injection Hrun as <-.
    pose proof (steps_push u' w) as Hpush.
    pose proof Hpush as (_ & Hwf1 & _).
    assert (Hu1 : u ∉ updaters (array_push (_updaters (hub w)) u' w)).
    { rewrite updaters_push by exact Hwf. intros Hin.
      apply elem_of_app in Hin as [Hin | Hin]; [now apply Hu |].
      apply list_elem_of_singleton in Hin. congruence. }
    destruct (invoke_quiet _ _ _ _ _ Hne (Hwf1 Hwf) Hu1 Hcall) as (Hu' & Hq).
    split; [exact Hu' |]. exact Hq.
  - injection Hrun as <-. split.
    + rewrite updaters_unregister. intros Hin.
      apply list_elem_of_filter in Hin. now apply Hu.
    + rewrite (steps_new_calls _ _ _ (steps_unregister u' w)). constructor.
  - eapply setValue_quiet; eassumption.
Qed.

Lemma run_ops_quiet (ops : list Op) :
  CallRegister u ∉ ops ->
  forall w w',
    wf w -> u ∉ updaters w ->
    run_ops invoke ops w = Some w' ->
    (u ∉ updaters w') /\ Forall (fun c => callee c ≠ u) (new_calls w w').
Proof.
  induction ops as [| op ops IH]; intros Hops w w' Hwf Hu Hrun;
    simpl in Hrun.
  - injection Hrun as <-. split; [exact Hu |].
    unfold new_calls. rewrite drop_all. constructor.
  - destruct (run_op invoke op w) as [w1 |] eqn:Hop; [| discriminate].
    assert (Hne : op ≠ CallRegister u) by (intros ->; apply Hops; left).
    assert (Hrest : CallRegister u ∉ ops)
      by (intros Hin; apply Hops; now right).
    destruct (run_op_quiet _ _ _ Hne Hwf Hu Hop) as (Hu1 & Hq1).
    destruct (run_op_steps _ invoke_steps _ _ _ Hwf Hop) as (n1 & Hs1).
    pose proof Hs1 as (_ & Hwf1 & _).
    destruct (IH Hrest _ _ (Hwf1 Hwf) Hu1 Hrun) as (Hu' & Hq2).
    destruct (run_ops_steps _ invoke_steps _ _ _ (Hwf1 Hwf) Hrun)
      as (n2 & Hs2).
    split; [exact Hu' |].
    rewrite (steps_new_calls _ _ _ (steps_trans _ _ _ _ _ Hs1 Hs2)).
    rewrite (steps_new_calls _ _ _ Hs1) in Hq1.
    rewrite (steps_new_calls _ _ _ Hs2) in Hq2.
    apply Forall_app. now split.
Qed.

End Absent.

Lemma call_updater_quiet (body : Body) (u : updater) (fuel : nat) :
  never_registers u body ->
  forall u' v d w w',
    u' ≠ u -> wf w -> u ∉ updaters w ->
    call_updater body fuel u' v d w = Some w' ->
    (u ∉ updaters w') /\ Forall (fun c => callee c ≠ u) (new_calls w w').
Proof.
  intros Hnever.
  induction fuel as [| fuel IH]; intros u' v d w w' Hne Hwf Hu Hrun.
  - discriminate.
  - rewrite call_updater_S in Hrun. cbv zeta in Hrun.
    set (w1 := with_depth _ _) in Hrun.
    destruct (run_ops _ _ w1) as [w2 |] eqn:Hops; [| discriminate].
    injection Hrun as <-.
    destruct (run_ops_quiet u _ (call_updater_ok body fuel) IH _
                (Hnever _ _ _ _) w1 w2 Hwf Hu Hops) as (Hu2 & Hq).
    split; [exact Hu2 |].
    destruct (run_ops_steps _ (call_updater_ok body fuel) _ w1 w2 Hwf Hops)
      as (new & Hs).
    rewrite (steps_new_calls _ _ _ Hs) in Hq.
    destruct Hs as (_ & _ & _ & Hc & _).
    unfold new_calls. simpl. rewrite Hc. simpl.
    rewrite <- app_assoc, drop_app_length.
    constructor; [exact Hne | exact Hq].
Qed.

(** ** Returning *)

Section Total.

Variable invoke : Invoke.
Hypothesis invoke_total : forall u v d w, exists w', invoke u v d w = Some w'.

Lemma forEach_from_total (a : nat) (v : JsValue) (d : Z) :
  forall (n k : nat) (w : World),
    exists w', forEach_from a (fun up => invoke up v d) k n w = Some w'.
Proof.
  induction n as [| n IH]; intros k w; simpl.
  - eauto.
  - destruct (array_get a w !! k) as [up |]; [| apply IH].
    destruct (invoke_total up v d w) as [w1 ->]. apply IH.
Qed.

Lemma setValue_total (newValue : JsValue) (f : BitmaskFactory) (w : World) :
  exists w', setValue invoke newValue f w = Some w'.
Proof.
  unfold setValue. destruct (strict_eq _ _); [eauto |].
  apply forEach_from_total.
Qed.

Lemma run_ops_total (ops : list Op) :
  forall w, exists w', run_ops invoke ops w = Some w'.
Proof.
  induction ops as [| op ops IH]; intros w; simpl; [eauto |].
  destruct op as [u | u | v f]; simpl.
  - unfold register.
    match goal with
    | |- context [invoke ?a ?b ?c ?e] =>
        destruct (invoke_total a b c e) as [w1 ->]
    end.
    simpl. apply IH.
  - apply IH.
  - destruct (setValue_total v f w) as [w1 ->]. apply IH.
Qed.

End Total.

Lemma hub_run_tame (body : Body) (fuel : nat) (ops : list Op) (w : World) :
  tame body -> exists w', hub_run body (S (S fuel)) ops w = Some w'.
Proof.
  intros Htame. apply run_ops_total.
  intros u v d w0. now apply call_updater_tame.
Qed.

Lemma inert_tame : tame inert.
Proof. intros w u v d op Hop. unfold inert in Hop. inversion Hop. Qed.

(** * The claims *)

(** ** setValue *)

(** C1, as the claim states it, fails: the descriptor is not brought into the
    signed 31-bit range.  With a factory that reports bit 30, the subscriber
    is called with 1073741824, which is above [MAX_SIGNED_31_BIT_INT]. *)
Lemma setValue_descriptor_exceeds_31_bits :
  exists w',
    hub_run inert 1
      [CallRegister 7%nat; CallSetValue (JNum (of_Z 1)) bit30_factory]
      (new_ContextProvider (JNum (of_Z 0))) = Some w' /\
    calls w' = [call_of (JNum (of_Z 0)) 0 0 7%nat;
                call_of (JNum (of_Z 1)) 1073741824 0 7%nat] /\
    (int31 1073741824 -> False) /\
    to_int32 MAX_SIGNED_31_BIT_INT < 1073741824.
Proof.
  eexists. split; [vm_compute; reflexivity |].
  split; [reflexivity |].
  split; [unfold int31; lia | vm_compute; reflexivity].
Qed.

(** C1 (amended): [setValue(newValue, bitmaskFactory)] with [newValue ===]
    the current value changes nothing and notifies nobody.  Otherwise the
    descriptor is [bitmaskFactory(oldValue, newValue)] converted by [| 0] to
    a signed 32-bit integer (an integer already in that range, so any in the
    31-bit range, is kept as it is); [newValue] is stored; then the
    subscribers registered at that moment are called in registration order
    with [(newValue, descriptor)], once each by this call.  With subscribers
    that leave the hub alone the call returns, and these calls are all that
    happened; with tame subscribers it returns too. *)
Theorem setValue_spec (body : Body) (fuel : nat) (newValue : JsValue)
    (f : BitmaskFactory) (w : World) :
  wf w ->
  let descriptor := to_int32 (f (value (hub w)) newValue) in
  let stored :=
    with_hub {| value := newValue; _updaters := _updaters (hub w) |} w in
  (strict_eq newValue (value (hub w)) = true ->
   hub_setValue body fuel newValue f w = Some w) /\
  (strict_eq newValue (value (hub w)) = false ->
   int32 descriptor /\
   (forall z, f (value (hub w)) newValue = of_Z z -> int32 z ->
              descriptor = z) /\
   hub_setValue body fuel newValue f w
   = notify_snapshot (call_updater body fuel) (updaters w)
       newValue descriptor stored /\
   (forall w', hub_setValue body fuel newValue f w = Some w' ->
      made_at (depth w) (new_calls w w')
      = map (call_of newValue descriptor (depth w)) (updaters w)) /\
   ((forall u, u ∈ updaters w -> forall w1 v1 d1, body w1 u v1 d1 = []) ->
    hub_setValue body (S fuel) newValue f w
    = Some (with_calls
              (calls w ++ map (call_of newValue descriptor (depth w))
                              (updaters w))
              stored)) /\
   (tame body ->
    exists w', hub_setValue body (S (S fuel)) newValue f w = Some w')).
Proof.
  intros Hwf descriptor stored. split.
  - intros Heq. unfold hub_setValue, setValue. now rewrite Heq.
  - intros Hne.
    assert (Hsnap : forall n,
      hub_setValue body n newValue f w
      = notify_snapshot (call_updater body n) (updaters w)
          newValue descriptor stored).
    { intros n. unfold hub_setValue.
      rewrite (setValue_is_snapshot _ (call_updater_ok body n)) by exact Hwf.
      unfold setValue_snapshot. now rewrite Hne. }
    split; [apply to_int32_range |].
    split.
    { intros z Hz Hrange. unfold descriptor.
      rewrite Hz, to_int32_of_Z. now apply wrap32_id. }
    split; [apply Hsnap |].
    split.
    + intros w' Hrun.
      destruct (setValue_steps _ (call_updater_ok body fuel) _ _ _ _
                  Hwf Hne Hrun) as (new & Hs & Hmade).
      now rewrite (steps_new_calls _ _ _ Hs).
    + split.
      * intros Hinert. rewrite Hsnap.
        now rewrite notify_inert by exact Hinert.
      * intros Htame. apply setValue_total.
        intros u v d w0. now apply call_updater_tame.
Qed.

(** [setValue_spec] on a hub with three subscribers and the default
    factory: going from 0 to 5 calls 1, 2 and 3 with [(5, 1073741823)]. *)
Lemma setValue_spec_witness :
  wf three_subscribers /\
  hub_setValue inert 1 (JNum (of_Z 5)) defaultBitmaskFactory three_subscribers
  = Some (with_calls
            (map (call_of (JNum (of_Z 5)) 1073741823 0) [1; 2; 3]%nat)
            (with_hub {| value := JNum (of_Z 5); _updaters := 0%nat |}
               three_subscribers)).
Proof.
  assert (Hwf : wf three_subscribers) by (unfold wf; simpl; lia).
  split; [exact Hwf |].
  pose proof (setValue_spec inert 0 (JNum (of_Z 5)) defaultBitmaskFactory
                three_subscribers Hwf) as [_ Hchange].
  destruct (Hchange eq_refl) as (_ & _ & _ & _ & Hinert & _).
  rewrite Hinert by reflexivity. reflexivity.
Defined.

(** ** register *)

(** C2: [register(callback)] appends the callback to the subscriber list,
    then calls it, and that is the one call that [register] itself makes:
    with the hub's current value and descriptor 0.  What it returns is a
    handle that, when called, takes the callback out of the subscriber list
    and touches nothing else.  When the callback leaves the hub alone,
    [register] returns, the list has grown by the callback and the call is
    all that happened. *)
Theorem register_spec (body : Body) (fuel : nat) (u : updater) (w : World) :
  wf w ->
  let appended := array_push (_updaters (hub w)) u w in
  updaters appended = updaters w ++ [u] /\
  value (hub appended) = value (hub w) /\
  hub_register body fuel u w
  = (fun w' => (w', RetClosure (unregister u)))
      <$> call_updater body fuel u (value (hub w)) 0 appended /\
  (forall w' r, hub_register body fuel u w = Some (w', r) ->
     made_at (depth w) (new_calls w w')
     = [call_of (value (hub w)) 0 (depth w) u] /\
     head (new_calls w w') = Some (call_of (value (hub w)) 0 (depth w) u) /\
     exists run,
       r = RetClosure run /\
       forall w2,
         call_returned r w2 = Normal (run w2) /\
         updaters (run w2) = filter (fun i => i ≠ u) (updaters w2) /\
         (u ∉ updaters (run w2)) /\
         value (hub (run w2)) = value (hub w2) /\
         calls (run w2) = calls w2) /\
  ((forall w1 v1 d1, body w1 u v1 d1 = []) ->
   exists w',
     hub_register body (S fuel) u w = Some (w', RetClosure (unregister u)) /\
     updaters w' = updaters w ++ [u] /\
     value (hub w') = value (hub w) /\
     calls w' = calls w ++ [call_of (value (hub w)) 0 (depth w) u]) /\
  (tame body ->
   exists w', hub_register body (S (S fuel)) u w
              = Some (w', RetClosure (unregister u))).
Proof.
  intros Hwf appended.
  assert (Happ : updaters appended = updaters w ++ [u])
    by (apply updaters_push; exact Hwf).
  split; [exact Happ |].
  split; [reflexivity |].
  split.
  { unfold hub_register, register. fold appended.
    change (value (hub appended)) with (value (hub w)).
    now destruct (call_updater body fuel u (value (hub w)) 0 appended). }
  split.
  - intros w' r Hrun.
    destruct (register_steps _ (call_updater_ok body fuel) _ _ _ _ Hwf Hrun)
      as (-> & rest & Hs & Hdeep).
    rewrite (steps_new_calls _ _ _ Hs).
    split; [now apply made_at_call |].
    split; [reflexivity |].
    exists (unregister u). split; [reflexivity |].
    intros w2. split; [reflexivity |].
    split; [apply updaters_unregister |].
    split; [apply unregister_absent |].
    split; reflexivity.
  - split.
    + intros Hinert. eexists. split.
      * unfold hub_register, register.
        now rewrite call_updater_inert by exact Hinert.
      * split; [exact Happ |]. split; reflexivity.
    + intros Htame. unfold hub_register, register.
      destruct (call_updater_tame body fuel u (value (hub appended)) 0
                  appended Htame) as [w' Hw'].
      fold appended. rewrite Hw'. eauto.
Qed.

(** [register_spec] on a fresh hub holding 5: updater 7 is subscribed and
    called with [(5, 0)], and calling the handle unsubscribes it. *)
Lemma register_spec_witness :
  wf (new_ContextProvider (JNum (of_Z 5))) /\
  exists w',
    hub_register inert 1 7%nat (new_ContextProvider (JNum (of_Z 5)))
    = Some (w', RetClosure (unregister 7%nat)) /\
    updaters w' = [7%nat] /\
    calls w' = [call_of (JNum (of_Z 5)) 0 0 7%nat] /\
    updaters (unregister 7%nat w') = [].
Proof.
  assert (Hwf : wf (new_ContextProvider (JNum (of_Z 5))))
    by (unfold wf; simpl; lia).
  split; [exact Hwf |].
  destruct (register_spec inert 0 7%nat _ Hwf)
    as (_ & _ & _ & _ & Hinert & _).
  destruct (Hinert (fun _ _ _ => eq_refl)) as (w' & Hrun & Hl & _ & Hc).
  exists w'. split; [exact Hrun |].
  split; [exact Hl |]. split; [exact Hc |].
  rewrite updaters_unregister, Hl. reflexivity.
Defined.

(** ** unregister *)

(** C4: [unregister(callback)] takes the callback out of the subscriber list
    by identity and keeps the others in their order; when the callback is not
    in the list the list is unchanged; unregistering twice leaves the list as
    unregistering once.  The current value, the recorded calls and the
    console are untouched. *)
Theorem unregister_spec (u : updater) (w : World) :
  updaters (unregister u w) = filter (fun i => i ≠ u) (updaters w) /\
  (u ∉ updaters (unregister u w)) /\
  (forall i, i ≠ u -> i ∈ updaters (unregister u w) <-> i ∈ updaters w) /\
  (u ∉ updaters w -> updaters (unregister u w) = updaters w) /\
  updaters (unregister u (unregister u w)) = updaters (unregister u w) /\
  value (hub (unregister u w)) = value (hub w) /\
  calls (unregister u w) = calls w /\
  console (unregister u w) = console w.
Proof.
  split; [apply updaters_unregister |].
  split; [apply unregister_absent |].
  split.
  { intros i Hi. rewrite updaters_unregister, list_elem_of_filter. tauto. }
  split.
  { intros Hu. rewrite updaters_unregister.
    induction (updaters w) as [| i l IH]; [reflexivity |].
    rewrite filter_cons_True.
    - f_equal. apply IH. intros Hin. apply Hu. now right.
    - intros ->. apply Hu. left. }
  split.
  { rewrite !updaters_unregister.
    induction (updaters w) as [| i l IH]; [reflexivity |].
    destruct (decide (i = u)) as [-> | Hne].
    - rewrite filter_cons_False by tauto. exact IH.
    - rewrite !filter_cons_True by exact Hne. now rewrite IH. }
  repeat split.
Qed.

(** ** register, then unregister *)

(** C6, as the claim states it, fails: [register] calls the callback at once
    (with the current value and descriptor 0), so a callback that is
    registered and then unregistered has been called once. *)
Lemma register_then_unregister_was_called :
  exists w1 r,
    hub_register inert 1 7%nat (new_ContextProvider (JNum (of_Z 5)))
    = Some (w1, r) /\
    calls (unregister 7%nat w1) = [call_of (JNum (of_Z 5)) 0 0 7%nat].
Proof. do 2 eexists. split; [vm_compute |]; reflexivity. Qed.

(** C6 (amended): after [register(callback)] followed by
    [unregister(callback)] the callback has been called once by [register],
    its synchronising call with the current value and descriptor 0, and it is
    no longer in the subscriber list.  As long as nothing registers it again,
    whatever is done to the hub afterwards never calls it; and with tame
    updaters what is done afterwards returns. *)
Theorem register_then_unregister (body : Body) (fuel : nat) (u : updater)
    (w : World) :
  wf w ->
  (forall w1 r, hub_register body fuel u w = Some (w1, r) ->
     let w2 := unregister u w1 in
     made_at (depth w) (new_calls w w2)
     = [call_of (value (hub w)) 0 (depth w) u] /\
     (u ∉ updaters w2) /\
     (never_registers u body ->
      forall (ops : list Op) (fuel' : nat),
        CallRegister u ∉ ops ->
        (forall w3, hub_run body fuel' ops w2 = Some w3 ->
           Forall (fun c => callee c ≠ u) (new_calls w2 w3)) /\
        (tame body ->
           exists w3, hub_run body (S (S fuel')) ops w2 = Some w3))) /\
  ((forall w1 v1 d1, body w1 u v1 d1 = []) ->
   exists w1 r,
     hub_register body (S fuel) u w = Some (w1, r) /\
     new_calls w (unregister u w1)
     = [call_of (value (hub w)) 0 (depth w) u]).
Proof.
  intros Hwf. split.
  - intros w1 r Hrun. cbv zeta.
    destruct (register_steps _ (call_updater_ok body fuel) _ _ _ _ Hwf Hrun)
      as (_ & rest & Hs & Hdeep).
    pose proof (steps_trans _ _ _ _ _ Hs (steps_unregister u w1)) as Hs2.
    rewrite app_nil_r in Hs2.
    split.
    { rewrite (steps_new_calls _ _ _ Hs2). now apply made_at_call. }
    split; [apply unregister_absent |].
    intros Hnever ops fuel' Hops.
    assert (Hwf2 : wf (unregister u w1)).
    { destruct (steps_unregister u w1) as (_ & Hw & _). apply Hw.
      destruct Hs as (_ & Hw1 & _). now apply Hw1. }
    split.
    + intros w3 Hrun3.
      eapply (run_ops_quiet u _ (call_updater_ok body fuel')
                (call_updater_quiet body u fuel' Hnever) ops Hops _ w3 Hwf2);
        [apply unregister_absent | exact Hrun3].
    + intros Htame. now apply hub_run_tame.
  - intros Hinert. do 2 eexists. split.
    + unfold hub_register, register.
      now rewrite call_updater_inert by exact Hinert.
    + unfold new_calls, unregister. simpl. now rewrite drop_app_length.
Qed.

(** [register_then_unregister] on a hub with three subscribers: updater 7 is
    registered and unregistered, and two later changes of the value call
    1, 2 and 3 but not 7. *)
Lemma register_then_unregister_witness :
  wf three_subscribers /\
  exists w1 r,
    hub_register inert 1 7%nat three_subscribers = Some (w1, r) /\
    new_calls three_subscribers (unregister 7%nat w1)
    = [call_of (JNum (of_Z 0)) 0 0 7%nat] /\
    exists w3,
      hub_run inert 2
        [CallSetValue (JNum (of_Z 5)) defaultBitmaskFactory;
         CallSetValue (JNum (of_Z 7)) defaultBitmaskFactory]
        (unregister 7%nat w1) = Some w3 /\
      Forall (fun c => callee c ≠ 7%nat)
        (new_calls (unregister 7%nat w1) w3).
Proof.
  assert (Hwf : wf three_subscribers) by (unfold wf; simpl; lia).
  split; [exact Hwf |].
  destruct (register_then_unregister inert 1 7%nat three_subscribers Hwf)
    as (Hgeneral & _).
  destruct (register_then_unregister inert 0 7%nat three_subscribers Hwf)
    as (_ & Hinert).
  destruct (Hinert (fun _ _ _ => eq_refl)) as (w1 & r & Hrun & Hcalls).
  exists w1, r. split; [exact Hrun |]. split; [exact Hcalls |].
  destruct (Hgeneral w1 r Hrun) as (_ & _ & Hlater).
  assert (Hnever : never_registers 7%nat inert)
    by (intros w0 u' v d Hin; inversion Hin).
  assert (Hops : CallRegister 7%nat
                 ∉ [CallSetValue (JNum (of_Z 5)) defaultBitmaskFactory;
                    CallSetValue (JNum (of_Z 7)) defaultBitmaskFactory]).
  { intros Hin. repeat (apply elem_of_cons in Hin as [Hin | Hin];
                        [discriminate |]). inversion Hin. }
  destruct (Hlater Hnever _ 0%nat Hops) as (_ & Htotal).
  destruct (Hlater Hnever _ 2%nat Hops) as (Hquiet & _).
  destruct (Htotal inert_tame) as (w3 & Hrun3).
  exists w3. split; [exact Hrun3 |]. now apply Hquiet.
Defined.

(** ** The fan-out *)

(** C7: the fan-out of [setValue], which reads the live array index by
    index, is the traversal of a snapshot of the subscriber list taken when
    the fan-out starts.  So the calls the fan-out makes are those of the
    subscribers of that moment, in order: one that is unregistered meanwhile
    is still called, one that is registered meanwhile is not.  An
    [unregister] takes the callback out of the list at once, so no fan-out
    that starts after it calls the callback.  And with updaters that remove
    subscribers, or add subscribers that leave the hub alone, the fan-out
    returns. *)
Theorem fanout_over_snapshot (body : Body) (fuel : nat) (newValue : JsValue)
    (f : BitmaskFactory) (w : World) :
  wf w ->
  let descriptor := to_int32 (f (value (hub w)) newValue) in
  hub_setValue body fuel newValue f w
  = setValue_snapshot (call_updater body fuel) newValue f w /\
  (strict_eq newValue (value (hub w)) = false ->
   forall w', hub_setValue body fuel newValue f w = Some w' ->
     made_at (depth w) (new_calls w w')
     = map (call_of newValue descriptor (depth w)) (updaters w)) /\
  (forall u w0 w',
     wf w0 ->
     hub_setValue body fuel newValue f (unregister u w0) = Some w' ->
     Forall (fun c => callee c ≠ u)
       (made_at (depth w0) (new_calls (unregister u w0) w'))) /\
  (tame body ->
   exists w', hub_setValue body (S (S fuel)) newValue f w = Some w').
Proof.
  intros Hwf descriptor.
  assert (Hmade : forall w1 w',
    wf w1 ->
    strict_eq newValue (value (hub w1)) = false ->
    hub_setValue body fuel newValue f w1 = Some w' ->
    made_at (depth w1) (new_calls w1 w')
    = map (call_of newValue (to_int32 (f (value (hub w1)) newValue))
             (depth w1)) (updaters w1)).
  { intros w1 w' Hwf1 Hne Hrun.
    destruct (setValue_steps _ (call_updater_ok body fuel) _ _ _ _
                Hwf1 Hne Hrun) as (new & Hs & Hnew).
    now rewrite (steps_new_calls _ _ _ Hs). }
  split.
  { apply (setValue_is_snapshot _ (call_updater_ok body fuel)). exact Hwf. }
  split; [intros Hne w'; now apply Hmade |].
  split.
  - intros u w0 w' Hwf0 Hrun.
    assert (Hwf1 : wf (unregister u w0)).
    { destruct (steps_unregister u w0) as (_ & Hw & _). now apply Hw. }
    change (depth w0) with (depth (unregister u w0)).
    destruct (strict_eq newValue (value (hub (unregister u w0)))) eqn:Heq.
    + unfold hub_setValue, setValue in Hrun. rewrite Heq in Hrun.
      injection Hrun as <-. unfold new_calls. rewrite drop_all. constructor.
    + rewrite (Hmade _ _ Hwf1 Heq Hrun).
      apply Forall_forall. intros c Hc.
      apply list_elem_of_fmap in Hc as (i & -> & Hi). simpl.
      intros ->. now apply (unregister_absent u w0).
  - intros Htame. apply setValue_total.
    intros u v d w0. now apply call_updater_tame.
Qed.

(** [fanout_over_snapshot] on three subscribers of which the first, when
    notified, unregisters the second and registers a fourth: the fan-out that
    is under way still calls 1, 2 and 3, and the next one calls 1, 3 and 4. *)
Lemma fanout_over_snapshot_witness :
  wf three_subscribers /\
  exists w1 w2,
    hub_setValue meddling 3 (JNum (of_Z 5)) defaultBitmaskFactory
      three_subscribers = Some w1 /\
    made_at 0 (new_calls three_subscribers w1)
    = map (call_of (JNum (of_Z 5)) 1073741823 0) [1; 2; 3]%nat /\
    updaters w1 = [1; 3; 4]%nat /\
    hub_setValue meddling 3 (JNum (of_Z 7)) defaultBitmaskFactory w1
    = Some w2 /\
    made_at 0 (new_calls w1 w2)
    = map (call_of (JNum (of_Z 7)) 1073741823 0) [1; 3; 4]%nat.
Proof.
  assert (Hwf : wf three_subscribers) by (unfold wf; simpl; lia).
  split; [exact Hwf |].
  destruct (hub_setValue meddling 3 (JNum (of_Z 5)) defaultBitmaskFactory
              three_subscribers) as [w1 |] eqn:Hrun1;
    [| vm_compute in Hrun1; discriminate].
  destruct (fanout_over_snapshot meddling 3 (JNum (of_Z 5))
              defaultBitmaskFactory three_subscribers Hwf)
    as (_ & Hcalls1 & _).
  specialize (Hcalls1 eq_refl w1 Hrun1).
  vm_compute in Hrun1. injection Hrun1 as <-.
  do 2 eexists. split; [reflexivity |].
  split; [exact Hcalls1 |].
  split; [reflexivity |].
  split; vm_compute; reflexivity.
Defined.

(** ** Consumer.updateContext *)

Lemma observed_bits_default (p : ConsumerProps) :
  unstable_observedBits p = Undefined \/ unstable_observedBits p = Null ->
  observed_bits p = 2 ^ 30 - 1.
Proof.
  intros [H | H]; unfold observed_bits; rewrite H; reflexivity.
Qed.

Lemma js_bitand_int32 (z : Z) (n : number) :
  int32 z -> js_bitand (of_Z z) n = Z.land z (to_int32 n).
Proof.
  intros Hz. unfold js_bitand. now rewrite to_int32_of_Z, wrap32_id.
Qed.

Lemma updateContext_cases (c : Consumer) (v : JsValue) (bitmask : number) :
  updateContext c v bitmask
  = if Z.land (observed_bits (props c)) (to_int32 bitmask) =? 0
    then c else setState v c.
Proof.
  unfold updateContext. rewrite js_bitand_int32; [reflexivity |].
  unfold observed_bits. rewrite js_bitor_zero. apply to_int32_range.
Qed.

Lemma setState_differs (c : Consumer) (v : JsValue) : setState v c <> c.
Proof.
  intros Heq. apply (f_equal enqueued) in Heq. simpl in Heq. lia.
Qed.

(** C3, as the claim states it, fails: a Consumer with no
    [unstable_observedBits] does not accept every non-zero descriptor.  Its
    mask is [MAX_SIGNED_31_BIT_INT], thirty one-bits, and the descriptor
    1073741824 (bit 30, which [setValue] delivers as it is) has none of
    them, so the state is left as it was. *)
Lemma default_mask_rejects_bit30 :
  exists c : Consumer,
    unstable_observedBits (props c) = Undefined /\
    to_int32 (of_Z 1073741824) = 1073741824 /\
    state_value (state c) = JNum (of_Z 0) /\
    updateContext c (JNum (of_Z 5)) (of_Z 1073741824) = c.
Proof.
  exists {| props := {| children := None; render := JUndefined;
                        unstable_observedBits := Undefined |};
            state := {| state_value := JNum (of_Z 0) |};
            context := None; enqueued := 0%nat |}.
  repeat split.
Qed.

(** C3 (amended): in [updateContext(value, descriptor)], [observed] is the
    Consumer's [unstable_observedBits], or [MAX_SIGNED_31_BIT_INT] when that
    is [undefined] or [null], converted by [| 0] to a signed 32-bit integer.
    When [observed & descriptor] is 0 the Consumer is left as it was;
    otherwise its state becomes the new value and a re-render is asked for.
    A Consumer whose mask is 0 is never changed, nor is any Consumer by
    descriptor 0 (the synchronising call of [register]).  A Consumer with no
    mask accepts exactly the descriptors that have one of the bits 0 to 29
    set, so every descriptor from 1 to [MAX_SIGNED_31_BIT_INT]. *)
Theorem updateContext_spec (c : Consumer) (v : JsValue) (descriptor : number) :
  let observed := observed_bits (props c) in
  int32 observed /\
  (Z.land observed (to_int32 descriptor) = 0 ->
   updateContext c v descriptor = c) /\
  (Z.land observed (to_int32 descriptor) <> 0 ->
   updateContext c v descriptor = setState v c /\
   state_value (state (updateContext c v descriptor)) = v /\
   enqueued (updateContext c v descriptor) = S (enqueued c)) /\
  (forall bits, unstable_observedBits (props c) = Given bits ->
     to_int32 bits = 0 -> updateContext c v descriptor = c) /\
  (to_int32 descriptor = 0 -> updateContext c v descriptor = c) /\
  (unstable_observedBits (props c) = Undefined \/
   unstable_observedBits (props c) = Null ->
   (updateContext c v descriptor = c <->
    to_int32 descriptor mod 2 ^ 30 = 0) /\
   (forall z, 1 <= z <= 1073741823 ->
      updateContext c v (of_Z z) = setState v c)).
Proof.
  intros observed.
  assert (Hkeep : forall d, Z.land observed (to_int32 d) = 0 ->
                            updateContext c v d = c).
  { intros d H0. rewrite updateContext_cases. fold observed.
    now rewrite H0. }
  assert (Htake : forall d, Z.land observed (to_int32 d) <> 0 ->
                            updateContext c v d = setState v c).
  { intros d Hn. rewrite updateContext_cases. fold observed.
    destruct (Z.eqb_spec (Z.land observed (to_int32 d)) 0); tauto. }
  split.
  { unfold observed, observed_bits. rewrite js_bitor_zero.
    apply to_int32_range. }
  split; [apply Hkeep |].
  split.
  { intros Hn. rewrite (Htake _ Hn). repeat split. }
  split.
  { intros bits Hbits Hzero. apply Hkeep.
    unfold observed, observed_bits. rewrite Hbits, js_bitor_zero, Hzero.
    apply Z.land_0_l. }
  split.
  { intros Hzero. apply Hkeep. rewrite Hzero. apply Z.land_0_r. }
  intros Hunset.
  assert (Hmask : forall d,
    Z.land observed (to_int32 d) = to_int32 d mod 2 ^ 30).
  { intros d. unfold observed.
    rewrite (observed_bits_default _ Hunset).
    change (2 ^ 30 - 1) with (Z.ones 30).
    now rewrite Z.land_comm, Z.land_ones by lia. }
  split.
  - split.
    + intros Hsame. destruct (Z.eq_dec (to_int32 descriptor mod 2 ^ 30) 0)
        as [H0 | Hn]; [exact H0 |].
      rewrite <- Hmask in Hn. rewrite (Htake _ Hn) in Hsame.
      now apply setState_differs in Hsame.
    + intros H0. apply Hkeep. now rewrite Hmask.
  - intros z Hz. apply Htake. rewrite Hmask, to_int32_of_Z.
    rewrite wrap32_id by (unfold int32; lia).
    rewrite Z.mod_small; lia.
Qed.

(** ** noopContext *)

(** C5, as the claim states it, fails: [noopContext.register] returns
    nothing, not an unsubscribe handle; calling what it returns is a
    [TypeError]. *)
Lemma noop_register_returns_no_handle :
  exists w' r,
    noop_register 7%nat (new_ContextProvider JUndefined) = Normal (w', r) /\
    r = RetUndefined /\
    call_returned r w' = Throw "TypeError: not a function".
Proof. do 2 eexists. repeat split. Qed.

(** C5 (amended): [noopContext.register] warns on the console and returns
    [undefined]; it changes nothing else and does not call the callback.
    [unregister] and [setValue] do nothing.  None of the three throws,
    whatever the arguments; [noopContext.value] is [undefined]. *)
Theorem noopContext_spec (u : updater) (v : JsValue) (f : BitmaskFactory)
    (w : World) :
  (exists w',
     noop_register u w = Normal (w', RetUndefined) /\
     console w' = console w ++ ["Consumer used without a Provider"] /\
     arrays w' = arrays w /\ hub w' = hub w /\
     calls w' = calls w /\ depth w' = depth w) /\
  noop_unregister u w = Normal w /\
  noop_setValue v f w = Normal w /\
  provider_value noopContext = JUndefined /\
  provider_value (getContextProvider None) = JUndefined.
Proof.
  split.
  - eexists. split; [reflexivity |]. repeat split.
  - repeat split.
Qed.

(** ** Provider.render *)

(** C8, as the claim states it, fails: a single child that is falsy, such as
    the number 0, is not passed through; [null] is rendered. *)
Lemma falsy_only_child_is_dropped :
  Provider_render (Some [JNum (of_Z 0)]) = Plain JNull /\
  Plain JNull <> Plain (JNum (of_Z 0)).
Proof. split; [reflexivity | discriminate]. Qed.

(** C8 (amended): [Provider.render] wraps two or more children in one
    [span] element; passes a single child through unchanged when it is truthy
    (as every element is) and renders [null] when it is falsy; and renders
    [null] when there are no children. *)
Theorem Provider_render_spec (cs : Children) :
  (forall nodes, cs = Some nodes -> (1 < length nodes)%nat ->
     Provider_render cs = Element "span" nodes) /\
  (forall child, cs = Some [child] -> truthy child = true ->
     Provider_render cs = Plain child) /\
  (forall child, cs = Some [child] -> truthy child = false ->
     Provider_render cs = Plain JNull) /\
  (cs = None \/ cs = Some [] -> Provider_render cs = Plain JNull).
Proof.
  split.
  { intros nodes -> Hlen. unfold Provider_render, several_children.
    destruct (Nat.ltb_spec 1 (length nodes)); [reflexivity | lia]. }
  split.
  { intros child -> Ht. unfold Provider_render, js_or. simpl. now rewrite Ht. }
  split.
  { intros child -> Hf. unfold Provider_render, js_or. simpl. now rewrite Hf. }
  intros [-> | ->]; reflexivity.
Qed.

(** ** Consumer.render *)

(** C9, as the claim states it, fails: when the same function is supplied
    both as the child and as the [render] prop, no warning is emitted. *)
Lemma same_function_twice_no_warning :
  exists c : Consumer,
    first_child (children (props c)) = JFun 1 /\
    render (props c) = JFun 1 /\
    Consumer_render identity_functions JNull c []
    = (Normal (JNum (of_Z 5)), []).
Proof.
  exists {| props := {| children := Some [JFun 1]; render := JFun 1;
                        unstable_observedBits := Undefined |};
            state := {| state_value := JNum (of_Z 5) |};
            context := None; enqueued := 0%nat |}.
  repeat split.
Qed.

(** C9 (amended): [Consumer.render] resolves the renderer as the first child
    when that is truthy, else as the [render] prop.  When a function child
    and a different [render] prop are both supplied, one warning is emitted
    and the child is the one called.  A renderer that is a function is called
    with the state's value, or the default value when that is falsy, and its
    result is rendered.  Otherwise a warning is emitted and nothing is
    rendered.  Render never throws, and only adds to the console. *)
Theorem Consumer_render_spec (apply : nat -> JsValue -> JsValue)
    (value0 : JsValue) (c : Consumer) (out : list string) :
  let child := first_child (children (props c)) in
  let r := getRenderer (props c) in
  let arg := js_or (state_value (state c)) value0 in
  (truthy child = true -> r = child) /\
  (truthy child = false -> r = render (props c)) /\
  (forall ref, child = JFun ref ->
     truthy (render (props c)) = true ->
     strict_eq (render (props c)) child = false ->
     Consumer_render apply value0 c out
     = (Normal (apply ref arg), out ++ [both_defined])) /\
  (forall ref, r = JFun ref ->
     fst (Consumer_render apply value0 c out) = Normal (apply ref arg)) /\
  (is_function r = false ->
     fst (Consumer_render apply value0 c out) = Normal JUndefined /\
     exists before,
       snd (Consumer_render apply value0 c out) = before ++ [no_function] /\
       (before = out \/ before = out ++ [both_defined])) /\
  (exists result, fst (Consumer_render apply value0 c out) = Normal result) /\
  (exists added, snd (Consumer_render apply value0 c out) = out ++ added).
Proof.
  intros child r arg.
  assert (Hr : r = if truthy child then child else render (props c))
    by reflexivity.
  split; [intros Ht; now rewrite Hr, Ht |].
  split; [intros Hf; now rewrite Hr, Hf |].
  split.
  { intros ref Hchild Hrender Hdiff.
    assert (Hrc : r = child) by (rewrite Hr, Hchild; reflexivity).
    unfold Consumer_render. fold r. rewrite Hrc, Hrender, Hdiff, Hchild.
    reflexivity. }
  split.
  { intros ref Href. unfold Consumer_render. fold r. rewrite Href.
    reflexivity. }
  split.
  { intros Hnf. unfold Consumer_render. fold r. rewrite Hnf. simpl.
    split; [reflexivity |].
    destruct (_ && _); eexists; split; try reflexivity; auto. }
  split.
  - unfold Consumer_render. fold r.
    destruct r; simpl; eauto.
  - unfold Consumer_render, warn. fold r.
    destruct (_ && _), (is_function r); simpl.
    + exists [both_defined]. reflexivity.
    + exists [both_defined; no_function]. now rewrite <- app_assoc.
    + exists []. now rewrite app_nil_r.
    + exists [no_function]. reflexivity.
Qed.

(** ** The default value *)

(** C10: whenever the value a Consumer would use is falsy, the [value] given
    to [createContext] is used instead.  The constructor's state is that
    default when the context provider's value is falsy (as it is without a
    Provider), and the provider's value otherwise; the render function is
    called with the default when the state's value is falsy.  [0], the empty
    string, [false], [null], [undefined] and [NaN] are falsy. *)
Theorem falsy_value_gives_default (apply : nat -> JsValue -> JsValue)
    (value0 : JsValue) (p : ConsumerProps) (ctx : option ContextProvider)
    (c : Consumer) (out : list string) :
  let provided := provider_value (getContextProvider ctx) in
  (truthy provided = false ->
   state_value (state (Consumer_constructor value0 p ctx)) = value0) /\
  (truthy provided = true ->
   state_value (state (Consumer_constructor value0 p ctx)) = provided) /\
  (ctx = None ->
   state_value (state (Consumer_constructor value0 p ctx)) = value0) /\
  (truthy (state_value (state c)) = false ->
   forall ref, getRenderer (props c) = JFun ref ->
     fst (Consumer_render apply value0 c out) = Normal (apply ref value0)) /\
  (truthy (JNum (of_Z 0)) = false /\ truthy (JStr "") = false /\
   truthy (JBool false) = false /\ truthy JNull = false /\
   truthy JUndefined = false /\ truthy (JNum NaN) = false).
Proof.
  intros provided.
  split.
  { intros Hf. unfold Consumer_constructor, js_or. simpl.
    fold provided. now rewrite Hf. }
  split.
  { intros Ht. unfold Consumer_constructor, js_or. simpl.
    fold provided. now rewrite Ht. }
  split; [now intros -> |].
  split.
  { intros Hf ref Href. unfold Consumer_render. rewrite Href. simpl.
    unfold js_or. now rewrite Hf. }
  repeat split.
Qed.

(** ** Well-formed worlds are the ones that arise *)

Lemma wf_new_ContextProvider (initialValue : JsValue) :
  wf (new_ContextProvider initialValue).
Proof. unfold wf. simpl. lia. Qed.

Lemma hub_run_wf (body : Body) (fuel : nat) (ops : list Op) (w w' : World) :
  wf w -> hub_run body fuel ops w = Some w' -> wf w'.
Proof.
  intros Hwf Hrun.
  destruct (run_ops_steps _ (call_updater_ok body fuel) _ _ _ Hwf Hrun)
    as (new & _ & Hw & _).
  now apply Hw.
Qed.

(** * Beyond the claims: the rest of [context.ts] *)

(** ** createContext and its keys *)

Lemma append_inj_r (p s t : string) : p +:+ s = p +:+ t -> s = t.
Proof.
  induction p as [| a p IH]; simpl; [tauto |].
  intros H. injection H as H. now apply IH.
Qed.

Lemma context_key_inj (i j : N) : context_key i = context_key j -> i = j.
Proof.
  unfold context_key. intros H. apply append_inj_r in H.
  now apply (inj pretty) in H.
Qed.

Lemma createContexts_keys (args : list (JsValue * option BitmaskFactory)) :
  forall ids : N,
    (ids + N.of_nat (length args) <= 2 ^ 53)%N ->
    key <$> createContexts args ids
    = (fun k => context_key (ids + N.of_nat k)) <$> seq 0 (length args).
Proof.
  induction args as [| [v f] args IH]; intros ids Hbound; [reflexivity |].
  cbn [createContexts createContext length seq fmap list_fmap].
  cbn [length] in Hbound.
  f_equal.
  - simpl. now rewrite N.add_0_r.
  - unfold ids_after.
    destruct (N.ltb_spec ids (2 ^ 53)) as [_ | Hge]; [| lia].
    change (list_fmap _ _ key (createContexts args (ids + 1)))
      with (key <$> createContexts args (ids + 1)).
    rewrite IH by lia.
    rewrite <- fmap_S_seq, <- list_fmap_compose.
    apply list_fmap_ext. intros _ k _. simpl. f_equal. lia.
Qed.

(** X1: as long as the counter stays within 2^53, the contexts made by
    successive calls of [createContext] have pairwise different keys. *)
Theorem createContext_keys_distinct
    (args : list (JsValue * option BitmaskFactory)) (ids : N) :
  (ids + N.of_nat (length args) <= 2 ^ 53)%N ->
  NoDup (key <$> createContexts args ids).
Proof.
  intros Hbound. rewrite createContexts_keys by exact Hbound.
  apply NoDup_fmap_2; [| apply NoDup_seq].
  intros j k Hjk. apply context_key_inj in Hjk. lia.
Qed.

(** [createContext_keys_distinct] for three contexts made from counter 9. *)
Lemma createContext_keys_distinct_witness :
  NoDup (key <$> createContexts
                   [(JNull, None); (JNum (of_Z 0), None);
                    (JStr "dark", Some bit30_factory)] 9).
Proof.
  apply createContext_keys_distinct. vm_compute. discriminate.
Defined.

(** X2: once the counter has reached 2^53, [ids++] no longer changes it, and
    every further context gets the same key. *)
Theorem createContext_keys_collide
    (args : list (JsValue * option BitmaskFactory)) (ids : N) (cx : Context) :
  (2 ^ 53 <= ids)%N ->
  cx ∈ createContexts args ids ->
  key cx = context_key ids.
Proof.
  intros Hids. induction args as [| [v f] args IH]; intros Hin.
  - inversion Hin.
  - cbn [createContexts createContext] in Hin.
    assert (Hsame : ids_after ids = ids).
    { unfold ids_after. destruct (N.ltb_spec ids (2 ^ 53)); [lia | reflexivity]. }
    rewrite Hsame in Hin.
    apply elem_of_cons in Hin as [-> | Hin]; [reflexivity | now apply IH].
Qed.

(** [createContext_keys_collide] at the counter 2^53: the second of two
    contexts has the key of the first. *)
Lemma createContext_keys_collide_witness :
  key <$> createContexts [(JNull, None); (JNull, None)] (2 ^ 53)
  = [context_key (2 ^ 53); context_key (2 ^ 53)].
Proof.
  assert (Hin : forall cx,
    cx ∈ createContexts [(JNull, None); (JNull, None)] (2 ^ 53) ->
    key cx = context_key (2 ^ 53)).
  { intros cx. apply createContext_keys_collide. reflexivity. }
  cbn [createContexts createContext fmap list_fmap] in *.
  rewrite (Hin _ (list_elem_of_here _ _)).
  rewrite (Hin _ (list_elem_of_further _ _ _ (list_elem_of_here _ _))).
  reflexivity.
Defined.



(** ** Strict equality *)

Lemma strict_eq_refl (v : JsValue) : v <> JNum NaN -> strict_eq v v = true.
Proof.
  destruct v as [| | b | [q | | |] | s | r | r]; simpl; intros Hv;
    try reflexivity.
  - now destruct b.
  - apply Qeq_bool_refl.
  - congruence.
  - apply String.eqb_refl.
  - apply Nat.eqb_refl.
  - apply Nat.eqb_refl.
Qed.

Lemma strict_eq_NaN_l (v : JsValue) : strict_eq (JNum NaN) v = false.
Proof. now destruct v as [| | | [| | |] | | |]. Qed.

Lemma strict_eq_NaN_r (v : JsValue) : strict_eq v (JNum NaN) = false.
Proof. now destruct v as [| | | [| | |] | | |]. Qed.

(** ** Consumer.shouldComponentUpdate *)

(** X4: for a Consumer whose state value and renderer are not [NaN], and
    whose props stay as they are, [shouldComponentUpdate] lets the state that
    [updateContext(value, descriptor)] produces through exactly when the
    descriptor passed the mask and the value is not identical ([===]) to the
    one already held.  And new props that keep the children and the [render]
    prop (changing [unstable_observedBits] only) never cause an update. *)
Theorem shouldComponentUpdate_after_updateContext (c : Consumer)
    (v : JsValue) (descriptor : number) :
  state_value (state c) <> JNum NaN ->
  getRenderer (props c) <> JNum NaN ->
  shouldComponentUpdate c (props c) (state (updateContext c v descriptor))
  = negb (Z.land (observed_bits (props c)) (to_int32 descriptor) =? 0)
    && negb (strict_eq (state_value (state c)) v) /\
  (forall nextProps,
     children nextProps = children (props c) ->
     render nextProps = render (props c) ->
     shouldComponentUpdate c nextProps (state c) = false).
Proof.
  intros Hstate Hrenderer.
  pose proof (strict_eq_refl _ Hstate) as Hs.
  pose proof (strict_eq_refl _ Hrenderer) as Hr.
  split.
  - unfold shouldComponentUpdate. rewrite Hr, orb_false_r.
    rewrite updateContext_cases.
    destruct (Z.land _ _ =? 0); simpl; [now rewrite Hs | reflexivity].
  - intros nextProps Hchildren Hrender. unfold shouldComponentUpdate.
    assert (Hsame : getRenderer nextProps = getRenderer (props c))
      by (unfold getRenderer; now rewrite Hchildren, Hrender).
    now rewrite Hsame, Hs, Hr.
Qed.

(** [shouldComponentUpdate_after_updateContext] for a Consumer that holds 5
    and renders with a function child: being told 5 again does not update
    it. *)
Lemma shouldComponentUpdate_after_updateContext_witness :
  let c := {| props := {| children := Some [JFun 1]; render := JUndefined;
                          unstable_observedBits := Undefined |};
              state := {| state_value := JNum (of_Z 5) |};
              context := None; enqueued := 0%nat |} in
  shouldComponentUpdate c (props c)
    (state (updateContext c (JNum (of_Z 5)) MAX_SIGNED_31_BIT_INT)) = false.
Proof.
  intros c.
  destruct (shouldComponentUpdate_after_updateContext c (JNum (of_Z 5))
              MAX_SIGNED_31_BIT_INT ltac:(discriminate) ltac:(discriminate))
    as [H _].
  rewrite H. reflexivity.
Defined.

(** A Consumer whose state value is [NaN] is updated by every new state, also
    by one that holds [NaN] again, since [NaN !== NaN]. *)
Lemma shouldComponentUpdate_NaN (c : Consumer) (nextProps : ConsumerProps)
    (nextState : ConsumerState) :
  state_value (state c) = JNum NaN ->
  shouldComponentUpdate c nextProps nextState = true.
Proof.
  intros Hnan. unfold shouldComponentUpdate.
  now rewrite Hnan, strict_eq_NaN_l.
Qed.

(** ** The hub with Consumers as its subscribers *)

Lemma consumer_updaters_ok : invoke_ok consumer_updaters.
Proof. apply call_updater_ok. Qed.

Lemma consumer_call (u : updater) (v : JsValue) (d : Z) (w : World) :
  consumer_updaters u v d w
  = Some (with_calls (calls w ++ [call_of v d (depth w) u]) w).
Proof. reflexivity. Qed.

Lemma register_consumer (u : updater) (w : World) :
  register consumer_updaters u w
  = Some (with_calls (calls w ++ [call_of (value (hub w)) 0 (depth w) u])
            (array_push (_updaters (hub w)) u w),
          RetClosure (unregister u)).
Proof. reflexivity. Qed.

Lemma setValue_consumers (v : JsValue) (f : BitmaskFactory) (w : World) :
  wf w ->
  setValue consumer_updaters v f w
  = Some (if strict_eq v (value (hub w)) then w
          else with_calls
                 (calls w ++ map (call_of v (to_int32 (f (value (hub w)) v))
                                    (depth w)) (updaters w))
                 (with_hub {| value := v; _updaters := _updaters (hub w) |}
                    w)).
Proof.
  intros Hwf.
  rewrite (setValue_is_snapshot _ consumer_updaters_ok) by exact Hwf.
  unfold setValue_snapshot. destruct (strict_eq v (value (hub w)));
    [reflexivity |].
  unfold consumer_updaters. now rewrite notify_inert.
Qed.

Lemma wf_with_calls (l : list Call) (w : World) : wf (with_calls l w) <-> wf w.
Proof. reflexivity. Qed.

Lemma wf_push (u : updater) (w : World) :
  wf w -> wf (array_push (_updaters (hub w)) u w).
Proof. unfold wf, array_push. simpl. now rewrite length_alter. Qed.

Lemma wf_unregister (u : updater) (w : World) : wf (unregister u w).
Proof.
  unfold wf, unregister, array_new. simpl. rewrite length_app. simpl. lia.
Qed.

Lemma updaters_with_calls (l : list Call) (w : World) :
  updaters (with_calls l w) = updaters w.
Proof. reflexivity. Qed.

(** X5: [setValue] with the value just set is a no-op, for every value but
    [NaN]: the second of two calls with the same value changes nothing and
    calls nobody.  With [NaN] every call stores the value and calls every
    subscriber, whatever the current value is. *)
Theorem setValue_twice (v : JsValue) (f : BitmaskFactory) (w : World) :
  wf w ->
  exists w1,
    setValue consumer_updaters v f w = Some w1 /\
    (v <> JNum NaN -> setValue consumer_updaters v f w1 = Some w1) /\
    (v = JNum NaN ->
     new_calls w w1
     = map (call_of v (to_int32 (f (value (hub w)) v)) (depth w))
           (updaters w) /\
     exists w2,
       setValue consumer_updaters v f w1 = Some w2 /\
       new_calls w1 w2
       = map (call_of v (to_int32 (f v v)) (depth w)) (updaters w)).
Proof.
  intros Hwf. rewrite (setValue_consumers v f w Hwf).
  eexists. split; [reflexivity |]. split.
  - intros Hv. destruct (strict_eq v (value (hub w))) eqn:Heq.
    + rewrite (setValue_consumers v f w Hwf). now rewrite Heq.
    + rewrite setValue_consumers by exact Hwf. simpl.
      now rewrite (strict_eq_refl v Hv).
  - intros ->. rewrite strict_eq_NaN_l. split.
    + unfold new_calls. simpl. now rewrite drop_app_length.
    + rewrite setValue_consumers by exact Hwf. simpl.
      eexists. split; [reflexivity |].
      unfold new_calls. simpl. now rewrite drop_app_length.
Qed.

(** [setValue_twice] on three subscribers: a second [setValue(5)] is a
    no-op. *)
Lemma setValue_twice_witness :
  exists w1,
    setValue consumer_updaters (JNum (of_Z 5)) defaultBitmaskFactory
      three_subscribers = Some w1 /\
    setValue consumer_updaters (JNum (of_Z 5)) defaultBitmaskFactory w1
    = Some w1.
Proof.
  destruct (setValue_twice (JNum (of_Z 5)) defaultBitmaskFactory
              three_subscribers ltac:(unfold wf; simpl; lia))
    as (w1 & Hrun & Hagain & _).
  exists w1. split; [exact Hrun |]. apply Hagain. discriminate.
Defined.

(** ** The Provider's updates *)

Lemma Provider_updates_run (cx : Context) (values : list JsValue) :
  forall w : World,
    wf w ->
    exists w',
      Provider_updates cx values w = Some w' /\
      calls w'
      = calls w
        ++ flat_map (fun change =>
                       map (call_of (snd change)
                              (to_int32 (factory cx (fst change) (snd change)))
                              (depth w)) (updaters w))
             (changes (value (hub w)) values) /\
      updaters w' = updaters w /\
      value (hub w')
      = default (value (hub w)) (snd <$> last (changes (value (hub w)) values)) /\
      depth w' = depth w /\ wf w' /\ console w' = console w.
Proof.
  induction values as [| v values IH]; intros w Hwf.
  - exists w. simpl. rewrite app_nil_r. repeat split; auto.
  - cbn [Provider_updates changes]. unfold Provider_componentDidUpdate.
    rewrite setValue_consumers by exact Hwf.
    destruct (strict_eq v (value (hub w))) eqn:Heq; [now apply IH |].
    match goal with
    | |- context [Provider_updates cx values ?w1] =>
        destruct (IH w1 Hwf) as (w' & Hrun & Hc & Hu & Hv & Hd & Hwf' & Ho)
    end.
    exists w'. split; [exact Hrun |].
    split; [rewrite Hc; simpl; now rewrite <- app_assoc |].
    split; [exact Hu |].
    split.
    { rewrite Hv. simpl. rewrite last_cons.
      now destruct (last (changes v values)). }
    repeat split; assumption.
Qed.

(** X6: a Provider that receives a sequence of values passes on exactly the
    changes: each value that differs ([!==]) from the one before it is stored
    and told to every subscriber, in order, with the descriptor the factory
    gives for the value it replaces; a value identical to the one before
    it is dropped.  The subscriber list stays as it was, and the hub ends up
    holding the last value that changed. *)
Theorem Provider_passes_changes (cx : Context) (values : list JsValue)
    (w : World) :
  wf w ->
  exists w',
    Provider_updates cx values w = Some w' /\
    new_calls w w'
    = flat_map (fun change =>
                  map (call_of (snd change)
                         (to_int32 (factory cx (fst change) (snd change)))
                         (depth w)) (updaters w))
        (changes (value (hub w)) values) /\
    updaters w' = updaters w /\
    value (hub w')
    = default (value (hub w)) (snd <$> last (changes (value (hub w)) values)).
Proof.
  intros Hwf.
  destruct (Provider_updates_run cx values w Hwf)
    as (w' & Hrun & Hc & Hu & Hv & _).
  exists w'. split; [exact Hrun |].
  split; [| now split].
  unfold new_calls. now rewrite Hc, drop_app_length.
Qed.

(** [Provider_passes_changes] for the values 0, 5, 5, 7 received by a
    Provider that holds 0 and has three subscribers: they are told 5, then
    7. *)
Lemma Provider_passes_changes_witness :
  exists w',
    Provider_updates (fst (createContext (JNum (of_Z 0)) None 0))
      [JNum (of_Z 0); JNum (of_Z 5); JNum (of_Z 5); JNum (of_Z 7)]
      three_subscribers = Some w' /\
    new_calls three_subscribers w'
    = map (call_of (JNum (of_Z 5)) 1073741823 0) [1; 2; 3]%nat
      ++ map (call_of (JNum (of_Z 7)) 1073741823 0) [1; 2; 3]%nat /\
    value (hub w') = JNum (of_Z 7).
Proof.
  destruct (Provider_passes_changes
              (fst (createContext (JNum (of_Z 0)) None 0))
              [JNum (of_Z 0); JNum (of_Z 5); JNum (of_Z 5); JNum (of_Z 7)]
              three_subscribers ltac:(unfold wf; simpl; lia))
    as (w' & Hrun & Hcalls & _ & Hvalue).
  exists w'. split; [exact Hrun |].
  split; [exact Hcalls | exact Hvalue].
Defined.

(** ** What a Consumer sees of the Provider's updates *)

Lemma updateContext_of_int32 (c : Consumer) (v : JsValue) (n : number) :
  updateContext c v (of_Z (to_int32 n)) = updateContext c v n.
Proof.
  rewrite !updateContext_cases, to_int32_of_Z.
  now rewrite wrap32_id by apply to_int32_range.
Qed.

Lemma observe_app (u : updater) (l1 l2 : list Call) (c : Consumer) :
  observe u (l1 ++ l2) c = observe u l2 (observe u l1 c).
Proof.
  revert c. induction l1 as [| call l1 IH]; intros c; [reflexivity |].
  simpl. apply IH.
Qed.

Lemma observe_others (u : updater) (v : JsValue) (d : Z) (k : nat)
    (l : list updater) (c : Consumer) :
  u ∉ l -> observe u (map (call_of v d k) l) c = c.
Proof.
  revert c. induction l as [| i l IH]; intros c Hu; [reflexivity |].
  simpl. destruct (Nat.eqb_spec i u) as [-> | _].
  - exfalso. apply Hu. left.
  - apply IH. intros Hin. apply Hu. now right.
Qed.

Lemma observe_fanout (u : updater) (v : JsValue) (d : Z) (k : nat)
    (l : list updater) (c : Consumer) :
  NoDup l -> u ∈ l ->
  observe u (map (call_of v d k) l) c = updateContext c v (of_Z d).
Proof.
  revert c. induction l as [| i l IH]; intros c Hnodup Hu.
  - inversion Hu.
  - apply NoDup_cons in Hnodup as [Hi Hnodup]. simpl.
    destruct (Nat.eqb_spec i u) as [-> | Hne].
    + now apply observe_others.
    + apply IH; [exact Hnodup |].
      apply elem_of_cons in Hu as [-> | Hu]; [congruence | exact Hu].
Qed.

Lemma observe_Provider_updates (cx : Context) (values : list JsValue)
    (w w' : World) (u : updater) (c : Consumer) :
  wf w ->
  NoDup (updaters w) ->
  u ∈ updaters w ->
  Provider_updates cx values w = Some w' ->
  observe u (new_calls w w') c
  = fold_left (fun c change =>
                 updateContext c (snd change)
                   (factory cx (fst change) (snd change)))
      (changes (value (hub w)) values) c.
Proof.
  intros Hwf Hnodup Hu Hrun.
  destruct (Provider_updates_run cx values w Hwf)
    as (w1 & Hrun1 & Hcalls & _).
  rewrite Hrun in Hrun1. injection Hrun1 as <-.
  unfold new_calls. rewrite Hcalls, drop_app_length.
  generalize (changes (value (hub w)) values). intros l. revert c.
  induction l as [| [old v] l IH]; intros c; [reflexivity |].
  simpl. rewrite observe_app, observe_fanout by assumption.
  now rewrite updateContext_of_int32, IH.
Qed.

(** X7: a Consumer that is subscribed (once) to a Provider's hub goes
    through the Provider's changes one by one: its [updateContext] is applied
    to each changed value with the factory's descriptor for it, and to
    nothing else. *)
Theorem Consumer_follows_Provider (cx : Context) (values : list JsValue)
    (w w' : World) (u : updater) (c : Consumer) :
  wf w ->
  NoDup (updaters w) ->
  u ∈ updaters w ->
  Provider_updates cx values w = Some w' ->
  observe u (new_calls w w') c
  = fold_left (fun c change =>
                 updateContext c (snd change)
                   (factory cx (fst change) (snd change)))
      (changes (value (hub w)) values) c.
Proof.
  intros Hwf Hnodup Hu Hrun. now apply observe_Provider_updates.
Qed.

(** [Consumer_follows_Provider] for a Consumer interested in growth only,
    under a Provider that goes from 10 to 20 and then to 5: the Consumer
    takes 20 and ignores 5. *)
Lemma Consumer_follows_Provider_witness :
  exists w',
    Provider_updates
      (fst (createContext (JNum (of_Z 10)) (Some growth_factory) 0))
      [JNum (of_Z 20); JNum (of_Z 5)] one_subscriber = Some w' /\
    value (hub w') = JNum (of_Z 5) /\
    observe 7%nat (new_calls one_subscriber w') growth_consumer
    = setState (JNum (of_Z 20)) growth_consumer.
Proof.
  destruct (Provider_updates
              (fst (createContext (JNum (of_Z 10)) (Some growth_factory) 0))
              [JNum (of_Z 20); JNum (of_Z 5)] one_subscriber) as [w' |] eqn:Hrun;
    [| vm_compute in Hrun; discriminate].
  exists w'. split; [reflexivity |].
  split; [vm_compute in Hrun; injection Hrun as <-; reflexivity |].
  rewrite (Consumer_follows_Provider
             (fst (createContext (JNum (of_Z 10)) (Some growth_factory) 0))
             [JNum (of_Z 20); JNum (of_Z 5)] one_subscriber w' 7%nat
             growth_consumer);
    [reflexivity | unfold wf; simpl; lia | | | exact Hrun].
  - apply NoDup_singleton.
  - apply list_elem_of_here.
Defined.

Lemma default_factory_accepted (c : Consumer) (old v : JsValue) :
  updateContext c v (defaultBitmaskFactory old v)
  = if observed_bits (props c) mod 2 ^ 30 =? 0 then c else setState v c.
Proof.
  rewrite updateContext_cases. unfold defaultBitmaskFactory.
  change (to_int32 MAX_SIGNED_31_BIT_INT) with (Z.ones 30).
  now rewrite Z.land_ones by lia.
Qed.

Lemma fold_default_factory (l : list (JsValue * JsValue)) :
  forall c : Consumer,
    fold_left (fun c change =>
                 updateContext c (snd change)
                   (defaultBitmaskFactory (fst change) (snd change))) l c
    = if observed_bits (props c) mod 2 ^ 30 =? 0 then c
      else match last l with
           | Some change =>
               {| props := props c;
                  state := {| state_value := snd change |};
                  context := context c;
                  enqueued := (enqueued c + length l)%nat |}
           | None => c
           end.
Proof.
  induction l as [| [old v] l IH]; intros c.
  - simpl. now destruct (_ =? 0).
  - cbn [fold_left]. rewrite IH, default_factory_accepted. cbn [fst snd].
    destruct (observed_bits (props c) mod 2 ^ 30 =? 0) eqn:Hmask.
    + now rewrite Hmask.
    + cbn [props setState]. rewrite Hmask, last_cons.
      destruct (last l) as [change |] eqn:Hlast.
      * simpl. f_equal. lia.
      * apply last_None in Hlast. subst l. simpl. unfold setState.
        f_equal. lia.
Qed.

(** X8: under the default factory, a subscribed Consumer whose mask has one
    of the bits 0 to 29 (so any Consumer without [unstable_observedBits])
    holds, after the Provider's updates, the value the Provider's hub holds,
    provided some value changed, and has asked for one re-render per change;
    when no value changed it is untouched.  A Consumer whose mask has none of
    those bits (0, or bit 30 alone) is never touched. *)
Theorem Consumer_holds_current_value (cx : Context) (values : list JsValue)
    (w w' : World) (u : updater) (c : Consumer) :
  wf w ->
  NoDup (updaters w) ->
  u ∈ updaters w ->
  factory cx = defaultBitmaskFactory ->
  Provider_updates cx values w = Some w' ->
  let c' := observe u (new_calls w w') c in
  let changed := changes (value (hub w)) values in
  (observed_bits (props c) mod 2 ^ 30 <> 0 -> changed <> [] ->
   state_value (state c') = value (hub w') /\
   enqueued c' = (enqueued c + length changed)%nat /\
   props c' = props c) /\
  (changed = [] -> c' = c) /\
  (observed_bits (props c) mod 2 ^ 30 = 0 -> c' = c).
Proof.
  intros Hwf Hnodup Hu Hfactory Hrun c' changed.
  assert (Hc' : c' = fold_left
                       (fun c change =>
                          updateContext c (snd change)
                            (defaultBitmaskFactory (fst change) (snd change)))
                       changed c).
  { unfold c'. rewrite (observe_Provider_updates cx values w w' u c)
      by assumption.
    now rewrite Hfactory. }
  rewrite fold_default_factory in Hc'.
  destruct (Provider_updates_run cx values w Hwf)
    as (w1 & Hrun1 & _ & _ & Hvalue & _).
  rewrite Hrun in Hrun1. injection Hrun1 as <-. fold changed in Hvalue.
  split; [| split].
  - intros Hmask Hchanged.
    destruct (Z.eqb_spec (observed_bits (props c) mod 2 ^ 30) 0); [tauto |].
    destruct (last changed) as [change |] eqn:Hlast.
    + rewrite Hc', Hvalue. repeat split.
    + apply last_None in Hlast. contradiction.
  - intros Hnone. rewrite Hc', Hnone. simpl. now destruct (_ =? 0).
  - intros Hmask. rewrite Hc', Hmask. reflexivity.
Qed.

(** [Consumer_holds_current_value] for the values 0, 5, 5, 7 and a Consumer
    without a mask, subscribed as updater 2 of three: it ends up holding
    7. *)
Lemma Consumer_holds_current_value_witness :
  exists w',
    Provider_updates (fst (createContext (JNum (of_Z 0)) None 0))
      [JNum (of_Z 0); JNum (of_Z 5); JNum (of_Z 5); JNum (of_Z 7)]
      three_subscribers = Some w' /\
    state_value
      (state (observe 2%nat (new_calls three_subscribers w')
                (Consumer_constructor (JNum (of_Z 0))
                   {| children := Some [JFun 1]; render := JUndefined;
                      unstable_observedBits := Undefined |}
                   (Some (hub three_subscribers)))))
    = JNum (of_Z 7).
Proof.
  destruct (Provider_updates (fst (createContext (JNum (of_Z 0)) None 0))
              [JNum (of_Z 0); JNum (of_Z 5); JNum (of_Z 5); JNum (of_Z 7)]
              three_subscribers) as [w' |] eqn:Hrun;
    [| vm_compute in Hrun; discriminate].
  exists w'. split; [reflexivity |].
  destruct (Consumer_holds_current_value
              (fst (createContext (JNum (of_Z 0)) None 0))
              [JNum (of_Z 0); JNum (of_Z 5); JNum (of_Z 5); JNum (of_Z 7)]
              three_subscribers w' 2%nat
              (Consumer_constructor (JNum (of_Z 0))
                 {| children := Some [JFun 1]; render := JUndefined;
                    unstable_observedBits := Undefined |}
                 (Some (hub three_subscribers))))
    as (Hholds & _); try reflexivity; try exact Hrun.
  - unfold wf. simpl. lia.
  - compute_done.
  - compute_done.
  - destruct Hholds as (Hvalue & _); [vm_compute; discriminate | discriminate |].
    rewrite Hvalue. vm_compute in Hrun. injection Hrun as <-. reflexivity.
Defined.

(** ** Descriptors that come out as 0 *)

Lemma to_int32_zero_cases (n : number) :
  n = NaN \/ n = PosInfinity \/ n = NegInfinity \/
  (exists k, n = of_Z (k * 2 ^ 32)) \/
  (exists q, n = Num q /\ (-1 < q)%Q /\ (q < 1)%Q) ->
  to_int32 n = 0.
Proof.
  intros [-> | [-> | [-> | [[k ->] | (q & -> & Hlo & Hhi)]]]];
    try reflexivity.
  - rewrite to_int32_of_Z. unfold wrap32.
    rewrite Z_mod_mult. reflexivity.
  - unfold to_int32. destruct q as [a b]. unfold Qlt in Hlo, Hhi.
    simpl in *.
    assert (Hq : a ÷ Z.pos b = 0).
    { destruct (Z_lt_le_dec a 0) as [Hneg | Hpos].
      - assert (H0 : - a ÷ Z.pos b = 0) by (apply Z.quot_small; lia).
        rewrite Z.quot_opp_l in H0 by lia. lia.
      - apply Z.quot_small. lia. }
    rewrite Hq. reflexivity.
Qed.

Lemma updateContext_zero (c : Consumer) (v : JsValue) :
  updateContext c v (of_Z 0) = c.
Proof.
  rewrite updateContext_cases.
  change (to_int32 (of_Z 0)) with 0. now rewrite Z.land_0_r.
Qed.

Lemma observe_zero (u : updater) (v : JsValue) (k : nat) (l : list updater)
    (c : Consumer) :
  observe u (map (call_of v 0 k) l) c = c.
Proof.
  induction l as [| i l IH]; [reflexivity |].
  simpl. destruct (Nat.eqb i u); [| exact IH].
  change (Num (inject_Z 0)) with (of_Z 0).
  now rewrite updateContext_zero.
Qed.

(** X9: when the factory's result for a changed value is [NaN], infinite,
    a multiple of 2^32 or strictly between -1 and 1, the descriptor comes out
    as 0: the hub stores the new value and calls its subscribers, but no
    Consumer takes the value, whatever its mask. *)
Theorem zero_descriptor_is_invisible (v : JsValue) (f : BitmaskFactory)
    (w : World) :
  wf w ->
  strict_eq v (value (hub w)) = false ->
  (let n := f (value (hub w)) v in
   n = NaN \/ n = PosInfinity \/ n = NegInfinity \/
   (exists k, n = of_Z (k * 2 ^ 32)) \/
   (exists q, n = Num q /\ (-1 < q)%Q /\ (q < 1)%Q)) ->
  exists w',
    setValue consumer_updaters v f w = Some w' /\
    value (hub w') = v /\
    new_calls w w' = map (call_of v 0 (depth w)) (updaters w) /\
    forall u c, observe u (new_calls w w') c = c.
Proof.
  intros Hwf Hne Hzero. apply to_int32_zero_cases in Hzero.
  rewrite setValue_consumers by exact Hwf. rewrite Hne, Hzero.
  eexists. split; [reflexivity |]. split; [reflexivity |].
  assert (Hnew : forall l w0, new_calls w (with_calls (calls w ++ l) w0) = l)
    by (intros l w0; unfold new_calls; simpl; now rewrite drop_app_length).
  rewrite Hnew. split; [reflexivity |].
  intros u c. apply observe_zero.
Qed.

(** [zero_descriptor_is_invisible] for a factory that answers one half: the
    hub goes from 10 to 20 and the Consumer behind updater 7, here with every
    bit in its mask, stays at 10. *)
Lemma zero_descriptor_is_invisible_witness :
  exists w',
    setValue consumer_updaters (JNum (of_Z 20)) (fun _ _ => Num (1 # 2))
      one_subscriber = Some w' /\
    value (hub w') = JNum (of_Z 20) /\
    observe 7%nat (new_calls one_subscriber w')
      (Consumer_constructor (JNum (of_Z 0))
         {| children := Some [JFun 1]; render := JUndefined;
            unstable_observedBits := Given (of_Z (-1)) |}
         (Some (hub one_subscriber)))
    = Consumer_constructor (JNum (of_Z 0))
        {| children := Some [JFun 1]; render := JUndefined;
           unstable_observedBits := Given (of_Z (-1)) |}
        (Some (hub one_subscriber)).
Proof.
  destruct (zero_descriptor_is_invisible (JNum (of_Z 20))
              (fun _ _ => Num (1 # 2)) one_subscriber)
    as (w' & Hrun & Hvalue & _ & Hsame).
  - unfold wf. simpl. lia.
  - reflexivity.
  - right. right. right. right. exists (1 # 2). repeat split.
  - exists w'. split; [exact Hrun |]. split; [exact Hvalue |]. apply Hsame.
Defined.

(** ** Registering more than once *)

Lemma calls_to_fanout (u : updater) (v : JsValue) (d : Z) (k : nat)
    (l : list updater) :
  length (filter (fun c => callee c = u) (map (call_of v d k) l))
  = length (filter (fun i => i = u) l).
Proof.
  induction l as [| i l IH]; [reflexivity |].
  cbn [map]. destruct (decide (i = u)) as [Hi | Hi].
  - rewrite !filter_cons_True by assumption. simpl. now rewrite IH.
  - rewrite !filter_cons_False by assumption. exact IH.
Qed.

Lemma run_registers (u : updater) (k : nat) :
  forall w : World,
    wf w ->
    exists w1,
      run_ops consumer_updaters (replicate k (CallRegister u)) w = Some w1 /\
      wf w1 /\
      updaters w1 = updaters w ++ replicate k u /\
      value (hub w1) = value (hub w) /\
      calls w1
      = calls w ++ replicate k (call_of (value (hub w)) 0 (depth w) u).
Proof.
  induction k as [| k IH]; intros w Hwf.
  - exists w. simpl. rewrite !app_nil_r. repeat split; auto.
  - cbn [replicate run_ops run_op]. rewrite register_consumer.
    cbn [fmap option_fmap option_map fst].
    match goal with
    | |- context [run_ops _ _ ?w0] =>
        destruct (IH w0) as (w1 & Hrun & Hwf1 & Hu & Hv & Hc)
    end.
    { apply wf_with_calls, wf_push, Hwf. }
    exists w1. split; [exact Hrun |]. split; [exact Hwf1 |].
    rewrite updaters_with_calls, updaters_push in Hu by exact Hwf.
    split; [rewrite Hu; now rewrite <- app_assoc |].
    split; [exact Hv |].
    rewrite Hc. simpl. now rewrite <- app_assoc.
Qed.

(** X10: [register] does not look for the callback in the list: a callback
    registered [k] more times is in the list [k] more times and is called
    once for each of its entries by every fan-out, and one [unregister]
    takes all of its entries out. *)
Theorem registrations_add_up (u : updater) (k : nat) (w : World) :
  wf w ->
  exists w1,
    run_ops consumer_updaters (replicate k (CallRegister u)) w = Some w1 /\
    updaters w1 = updaters w ++ replicate k u /\
    (forall v f,
       strict_eq v (value (hub w1)) = false ->
       exists w2,
         setValue consumer_updaters v f w1 = Some w2 /\
         length (filter (fun c => callee c = u) (new_calls w1 w2))
         = (length (filter (fun i => i = u) (updaters w)) + k)%nat) /\
    (u ∉ updaters (unregister u w1)) /\
    updaters (unregister u w1) = filter (fun i => i ≠ u) (updaters w).
Proof.
  intros Hwf.
  destruct (run_registers u k w Hwf) as (w1 & Hrun & Hwf1 & Hu & _).
  exists w1. split; [exact Hrun |]. split; [exact Hu |].
  assert (Hrep : filter (fun i => i = u) (replicate k u) = replicate k u).
  { clear. induction k as [| k IH]; [reflexivity |].
    simpl. rewrite filter_cons_True by reflexivity. now rewrite IH. }
  assert (Hrep' : filter (fun i => i ≠ u) (replicate k u) = []).
  { clear. induction k as [| k IH]; [reflexivity |].
    simpl. now rewrite filter_cons_False by tauto. }
  split; [| split].
  - intros v f Hne. rewrite setValue_consumers by exact Hwf1. rewrite Hne.
    eexists. split; [reflexivity |].
    unfold new_calls. simpl. rewrite drop_app_length, calls_to_fanout.
    now rewrite Hu, filter_app, length_app, Hrep, length_replicate.
  - apply unregister_absent.
  - now rewrite updaters_unregister, Hu, filter_app, Hrep', app_nil_r.
Qed.

(** [registrations_add_up] for updater 2 registered twice more on the hub
    with subscribers 1, 2 and 3: the next change calls it three times. *)
Lemma registrations_add_up_witness :
  exists w1 w2,
    run_ops consumer_updaters [CallRegister 2%nat; CallRegister 2%nat]
      three_subscribers = Some w1 /\
    updaters w1 = [1; 2; 3; 2; 2]%nat /\
    setValue consumer_updaters (JNum (of_Z 5)) defaultBitmaskFactory w1
    = Some w2 /\
    length (filter (fun c => callee c = 2%nat) (new_calls w1 w2)) = 3%nat /\
    updaters (unregister 2%nat w1) = [1; 3]%nat.
Proof.
  destruct (registrations_add_up 2%nat 2 three_subscribers
              ltac:(unfold wf; simpl; lia))
    as (w1 & Hrun & Hu & Hcalls & _ & Hgone).
  destruct (Hcalls (JNum (of_Z 5)) defaultBitmaskFactory) as (w2 & Hrun2 & Hn).
  { vm_compute in Hrun. injection Hrun as <-. reflexivity. }
  exists w1, w2. repeat split; assumption.
Defined.

(** ** Every subscriber has been told the current value *)

Lemma last_fanout (u : updater) (v : JsValue) (d : Z) (k : nat)
    (l : list updater) :
  u ∈ l ->
  last (filter (fun c => callee c = u) (map (call_of v d k) l))
  = Some (call_of v d k u).
Proof.
  intros Hu.
  assert (H : last (filter (fun c => callee c = u) (map (call_of v d k) l))
              = if decide (u ∈ l) then Some (call_of v d k u) else None).
  { clear Hu. induction l as [| i l IH]; [reflexivity |].
    cbn [map]. destruct (decide (i = u)) as [-> | Hi].
    - rewrite filter_cons_True by reflexivity. rewrite last_cons, IH.
      rewrite (decide_True (P := u ∈ u :: l)) by left.
      now destruct (decide (u ∈ l)).
    - rewrite filter_cons_False by exact Hi. rewrite IH.
      destruct (decide (u ∈ l)) as [Hin | Hout].
      + now rewrite decide_True by now right.
      + rewrite decide_False; [reflexivity |].
        intros Hin. apply elem_of_cons in Hin as [-> | Hin]; tauto. }
  rewrite H. now rewrite decide_True.
Qed.

Lemma last_told_app_other (u : updater) (l : list Call) (c : Call) :
  callee c <> u -> last_told u (l ++ [c]) = last_told u l.
Proof.
  intros Hc. unfold last_told.
  now rewrite filter_app, filter_cons_False, filter_nil, app_nil_r by exact Hc.
Qed.

Lemma last_told_app_self (u : updater) (l : list Call) (c : Call) :
  callee c = u -> last_told u (l ++ [c]) = Some (arg_value c).
Proof.
  intros Hc. unfold last_told.
  rewrite filter_app, filter_cons_True, filter_nil by exact Hc.
  now rewrite last_snoc.
Qed.

Lemma told_op (op : Op) (w : World) :
  wf w ->
  (forall u, u ∈ updaters w -> last_told u (calls w) = Some (value (hub w))) ->
  exists w',
    run_op consumer_updaters op w = Some w' /\
    wf w' /\
    forall u, u ∈ updaters w' -> last_told u (calls w') = Some (value (hub w')).
Proof.
  intros Hwf Htold. destruct op as [u0 | u0 | v f]; cbn [run_op].
  - rewrite register_consumer. eexists. split; [reflexivity |].
    split; [apply wf_with_calls, wf_push, Hwf |].
    intros u Hu.
    change (u ∈ updaters (array_push (_updaters (hub w)) u0 w)) in Hu.
    rewrite updaters_push in Hu by exact Hwf.
    simpl. destruct (decide (u = u0)) as [-> | Hne].
    + now rewrite last_told_app_self.
    + rewrite last_told_app_other by (simpl; congruence).
      apply Htold. apply elem_of_app in Hu as [Hu | Hu]; [exact Hu |].
      apply list_elem_of_singleton in Hu. contradiction.
  - eexists. split; [reflexivity |]. split; [apply wf_unregister |].
    intros u Hu. rewrite updaters_unregister in Hu.
    apply list_elem_of_filter in Hu as [_ Hu]. now apply Htold.
  - rewrite setValue_consumers by exact Hwf.
    destruct (strict_eq v (value (hub w))).
    + eexists. split; [reflexivity |]. split; assumption.
    + eexists. split; [reflexivity |]. split; [exact Hwf |].
      intros u Hu. simpl. unfold last_told.
      rewrite filter_app, last_app.
      change (u ∈ updaters w) in Hu.
      now rewrite (last_fanout u _ _ _ _ Hu).
Qed.

Lemma told_ops (ops : list Op) :
  forall w : World,
    wf w ->
    (forall u, u ∈ updaters w -> last_told u (calls w) = Some (value (hub w))) ->
    exists w',
      run_ops consumer_updaters ops w = Some w' /\
      wf w' /\
      forall u, u ∈ updaters w' ->
                last_told u (calls w') = Some (value (hub w')).
Proof.
  induction ops as [| op ops IH]; intros w Hwf Htold.
  - exists w. repeat split; assumption.
  - destruct (told_op op w Hwf Htold) as (w1 & Hop & Hwf1 & Htold1).
    cbn [run_ops]. rewrite Hop. now apply IH.
Qed.

(** X11: whatever is registered, unregistered and set on a hub from its
    construction on, every callback in its subscriber list has been called,
    and the value of its last call is the value the hub holds. *)
Theorem subscribers_know_the_value (initialValue : JsValue) (ops : list Op) :
  exists w,
    run_ops consumer_updaters ops (new_ContextProvider initialValue) = Some w /\
    forall u, u ∈ updaters w -> last_told u (calls w) = Some (value (hub w)).
Proof.
  destruct (told_ops ops (new_ContextProvider initialValue))
    as (w & Hrun & _ & Htold).
  - apply wf_new_ContextProvider.
  - intros u Hu. inversion Hu.
  - exists w. now split.
Qed.

(** ** The Consumer's lifecycle in a page *)

Lemma filter_absent (u : updater) (l : list updater) :
  u ∉ l -> filter (fun i => i ≠ u) l = l.
Proof.
  induction l as [| a l IH]; intros Hu; [reflexivity |].
  rewrite filter_cons_True.
  - f_equal. apply IH. intros Hin. apply Hu. now right.
  - intros ->. apply Hu. left.
Qed.

Lemma attached_refl (base : Page) (u : updater) :
  Forall wf (hubs base) -> attached base u None 0 base.
Proof.
  intros Hwf. repeat split; auto.
  - simpl. now rewrite app_nil_r.
  - now rewrite app_nil_r.
  - exists []. now rewrite app_nil_r.
Qed.

(** Replacing the hub at [i] by one that differs only by calls of [u] with
    descriptor 0 and by its subscriber list. *)
Lemma attached_insert (base pg : Page) (u : updater) (cur cur' : option nat)
    (n i : nat) (w w' : World) (extra : list Call) :
  attached base u cur n pg ->
  hubs pg !! i = Some w ->
  wf w' ->
  value (hub w') = value (hub w) ->
  calls w' = calls w ++ extra ->
  Forall (fun c => callee c = u /\ arg_bitmask c = 0) extra ->
  updaters w'
  = page_updaters i base ++ (if decide (cur' = Some i) then [u] else []) ->
  (forall k, k ≠ i -> (cur' = Some k <-> cur = Some k)) ->
  attached base u cur' n
    {| hubs := <[i := w']> (hubs pg); page_console := page_console pg |}.
Proof.
  intros (Hlen & Hwf & Hcon & Hk) Hi Hwf' Hvalue Hcalls Hextra Hup Hcur.
  assert (Hlt : (i < length (hubs pg))%nat)
    by (apply lookup_lt_is_Some; eauto).
  split; [simpl; now rewrite length_insert |].
  split; [simpl; now apply Forall_insert |].
  split; [exact Hcon |].
  intros k. destruct (Hk k) as (Hupk & Hvk & extra0 & Hck & Hextra0).
  unfold page_updaters, page_value, page_calls in *. simpl.
  destruct (decide (k = i)) as [-> | Hne].
  - rewrite list_lookup_insert_eq by exact Hlt. simpl.
    rewrite Hi in Hvk, Hck. simpl in Hvk, Hck.
    split; [exact Hup |]. split; [now rewrite Hvalue |].
    exists (extra0 ++ extra). split.
    + now rewrite Hcalls, Hck, app_assoc.
    + apply Forall_app. now split.
  - rewrite list_lookup_insert_ne by congruence.
    split; [| split; [exact Hvk | eauto]].
    rewrite Hupk. destruct (decide (cur = Some k)) as [Hc | Hc].
    + now rewrite decide_True by now apply Hcur.
    + rewrite decide_False; [reflexivity |].
      intros Hc'. apply Hc. now apply Hcur.
Qed.

Lemma attached_lookup (base pg : Page) (u : updater) (cur : option nat)
    (n i : nat) :
  attached base u cur n pg ->
  (i < length (hubs base))%nat ->
  exists w,
    hubs pg !! i = Some w /\ wf w /\
    updaters w
    = page_updaters i base ++ (if decide (cur = Some i) then [u] else []).
Proof.
  intros (Hlen & Hwf & _ & Hk) Hi.
  destruct (lookup_lt_is_Some_2 (hubs pg) i) as [w Hw]; [lia |].
  exists w. split; [exact Hw |].
  split; [eapply Forall_lookup_1; eassumption |].
  destruct (Hk i) as (Hup & _). unfold page_updaters in Hup at 1.
  now rewrite Hw in Hup.
Qed.

Lemma mount_attached (base pg : Page) (u : updater) (ctx : option nat)
    (n : nat) :
  attached base u None n pg ->
  in_page base ctx ->
  exists pg',
    Consumer_componentDidMount ctx u pg = Some pg' /\
    attached base u ctx (n + match ctx with Some _ => 0 | None => 1 end) pg'.
Proof.
  intros Hatt Hctx. destruct ctx as [j |]; simpl in Hctx.
  - destruct (attached_lookup _ _ _ _ _ j Hatt Hctx) as (w & Hw & Hwf & Hup).
    unfold Consumer_componentDidMount, provider_register, on_hub.
    rewrite Hw, register_consumer. simpl.
    eexists. split; [reflexivity |]. rewrite Nat.add_0_r.
    eapply (attached_insert base pg u None (Some j) n j w _
              [call_of (value (hub w)) 0 (depth w) u] Hatt Hw).
    + apply wf_with_calls, wf_push, Hwf.
    + reflexivity.
    + reflexivity.
    + repeat constructor.
    + rewrite updaters_with_calls, updaters_push by exact Hwf.
      rewrite Hup, decide_False by discriminate.
      now rewrite app_nil_r, decide_True.
    + intros k Hk. split; intros Heq; [| discriminate].
      congruence.
  - eexists. split; [reflexivity |].
    destruct Hatt as (Hlen & Hwf & Hcon & Hk).
    repeat split; try assumption; simpl.
    + unfold warn. rewrite Hcon, <- app_assoc.
      now rewrite Nat.add_1_r, replicate_S_end.
    + apply Hk.
    + apply Hk.
    + apply Hk.
Qed.

Lemma unmount_attached (base pg : Page) (u : updater) (cur : option nat)
    (n : nat) :
  (forall k, u ∉ page_updaters k base) ->
  attached base u cur n pg ->
  in_page base cur ->
  exists pg',
    Consumer_componentWillUnmount cur u pg = Some pg' /\
    attached base u None n pg'.
Proof.
  intros Hbase Hatt Hcur. destruct cur as [i |]; simpl in Hcur.
  - destruct (attached_lookup _ _ _ _ _ i Hatt Hcur) as (w & Hw & Hwf & Hup).
    unfold Consumer_componentWillUnmount, provider_unregister, on_hub.
    rewrite Hw. eexists. split; [reflexivity |].
    eapply (attached_insert base pg u (Some i) None n i w _ [] Hatt Hw).
    + apply wf_unregister.
    + reflexivity.
    + unfold unregister, array_new. simpl. now rewrite app_nil_r.
    + constructor.
    + rewrite updaters_unregister, Hup, decide_True by reflexivity.
      rewrite decide_False by discriminate.
      rewrite filter_app, filter_cons_False, filter_nil, !app_nil_r by tauto.
      apply filter_absent, Hbase.
    + intros k Hk. split; intros Heq; [discriminate | congruence].
  - exists pg. split; [reflexivity | exact Hatt].
Qed.

Lemma update_attached (base pg : Page) (u : updater)
    (prevCtx ctx : option nat) (n : nat) :
  (forall k, u ∉ page_updaters k base) ->
  attached base u prevCtx n pg ->
  in_page base prevCtx -> in_page base ctx ->
  exists pg',
    Consumer_componentDidUpdate prevCtx ctx u pg = Some pg' /\
    attached base u ctx (n + losses prevCtx [ctx]) pg'.
Proof.
  intros Hbase Hatt Hprev Hctx. unfold Consumer_componentDidUpdate.
  cbn [losses]. rewrite Nat.add_0_r.
  destruct (decide (prevCtx = ctx)) as [<- | Hne].
  - exists pg. split; [reflexivity |]. now rewrite Nat.add_0_r.
  - destruct (unmount_attached _ _ _ _ _ Hbase Hatt Hprev)
      as (pg1 & Hun & Hatt1).
    unfold Consumer_componentWillUnmount in Hun. rewrite Hun.
    now apply mount_attached.
Qed.

Lemma updates_attached (base : Page) (u : updater) (ctxs : list (option nat)) :
  (forall k, u ∉ page_updaters k base) ->
  forall (pg : Page) (prevCtx : option nat) (n : nat),
    attached base u prevCtx n pg ->
    in_page base prevCtx -> Forall (in_page base) ctxs ->
    exists pg',
      Consumer_updates prevCtx ctxs u pg = Some pg' /\
      attached base u (default prevCtx (last ctxs))
        (n + losses prevCtx ctxs) pg'.
Proof.
  intros Hbase. induction ctxs as [| ctx ctxs IH];
    intros pg prevCtx n Hatt Hprev Hctxs.
  - exists pg. split; [reflexivity |]. simpl. now rewrite Nat.add_0_r.
  - apply Forall_cons in Hctxs as [Hctx Hctxs].
    destruct (update_attached _ _ _ _ _ _ Hbase Hatt Hprev Hctx)
      as (pg1 & Hup & Hatt1).
    cbn [Consumer_updates]. rewrite Hup.
    destruct (IH pg1 ctx _ Hatt1 Hctx Hctxs) as (pg' & Hrun & Hatt').
    exists pg'. split; [exact Hrun |].
    cbn [losses] in *. rewrite Nat.add_0_r in Hatt'.
    rewrite last_cons. rewrite Nat.add_assoc.
    now destruct (last ctxs).
Qed.

Lemma lifecycle_attached (pg : Page) (u : updater) (ctx0 : option nat)
    (ctxs : list (option nat)) :
  Forall wf (hubs pg) ->
  (forall k, u ∉ page_updaters k pg) ->
  in_page pg ctx0 -> Forall (in_page pg) ctxs ->
  let ctx := default ctx0 (last ctxs) in
  let n := (match ctx0 with Some _ => 0 | None => 1 end
            + losses ctx0 ctxs)%nat in
  exists pg1 pg2 pg3,
    Consumer_componentDidMount ctx0 u pg = Some pg1 /\
    Consumer_updates ctx0 ctxs u pg1 = Some pg2 /\
    Consumer_componentWillUnmount ctx u pg2 = Some pg3 /\
    attached pg u ctx n pg2 /\
    attached pg u None n pg3.
Proof.
  intros Hwf Hbase Hctx0 Hctxs ctx n.
  destruct (mount_attached pg pg u ctx0 0 (attached_refl pg u Hwf) Hctx0)
    as (pg1 & Hmount & Hatt1).
  destruct (updates_attached pg u ctxs Hbase pg1 ctx0 _ Hatt1 Hctx0 Hctxs)
    as (pg2 & Hrun & Hatt2).
  assert (Hctx : in_page pg ctx).
  { unfold ctx. destruct (last ctxs) as [c |] eqn:Hlast; [| exact Hctx0].
    simpl. eapply Forall_forall; [exact Hctxs |].
    eapply last_Some_elem_of. exact Hlast. }
  destruct (unmount_attached pg pg2 u _ _ Hbase Hatt2 Hctx)
    as (pg3 & Hun & Hatt3).
  exists pg1, pg2, pg3.
  split; [exact Hmount |]. split; [exact Hrun |]. split; [exact Hun |].
  split; [exact Hatt2 | exact Hatt3].
Qed.

(** X12: a Consumer that is mounted, then updated as its context changes
    from Provider to Provider (or to none), is at every moment subscribed to
    the Provider of its current context, once and last in the list, and to no
    other; the other subscribers and the Providers' values are as they were.
    After [componentWillUnmount] it is subscribed nowhere, and every
    subscriber list is what it was before the Consumer was mounted. *)
Theorem Consumer_subscribed_where_it_is (pg : Page) (u : updater)
    (ctx0 : option nat) (ctxs : list (option nat)) :
  Forall wf (hubs pg) ->
  (forall k, u ∉ page_updaters k pg) ->
  in_page pg ctx0 -> Forall (in_page pg) ctxs ->
  let ctx := default ctx0 (last ctxs) in
  exists pg1 pg2 pg3,
    Consumer_componentDidMount ctx0 u pg = Some pg1 /\
    Consumer_updates ctx0 ctxs u pg1 = Some pg2 /\
    Consumer_componentWillUnmount ctx u pg2 = Some pg3 /\
    (forall k,
       page_updaters k pg2
       = page_updaters k pg ++ (if decide (ctx = Some k) then [u] else []) /\
       page_value k pg2 = page_value k pg) /\
    (forall k,
       page_updaters k pg3 = page_updaters k pg /\
       page_value k pg3 = page_value k pg).
Proof.
  intros Hwf Hbase Hctx0 Hctxs ctx.
  destruct (lifecycle_attached pg u ctx0 ctxs Hwf Hbase Hctx0 Hctxs)
    as (pg1 & pg2 & pg3 & Hmount & Hrun & Hun & Hatt2 & Hatt3).
  exists pg1, pg2, pg3. repeat split; try assumption.
  - apply Hatt2.
  - apply Hatt2.
  - destruct Hatt3 as (_ & _ & _ & Hk). destruct (Hk k) as (Hup & _).
    now rewrite app_nil_r in Hup.
  - apply Hatt3.
Qed.

(** [Consumer_subscribed_where_it_is] for a Consumer mounted under the first
    of two Providers and moved to the second, out of both, and back under the
    second. *)
Lemma Consumer_subscribed_where_it_is_witness :
  exists pg1 pg2 pg3,
    Consumer_componentDidMount (Some 0%nat) 7%nat two_providers = Some pg1 /\
    Consumer_updates (Some 0%nat)
      [Some 0%nat; Some 1%nat; None; None; Some 1%nat] 7%nat pg1 = Some pg2 /\
    Consumer_componentWillUnmount (Some 1%nat) 7%nat pg2 = Some pg3 /\
    page_updaters 0 pg2 = [] /\ page_updaters 1 pg2 = [3; 7]%nat /\
    page_updaters 0 pg3 = [] /\ page_updaters 1 pg3 = [3]%nat.
Proof.
  destruct (Consumer_subscribed_where_it_is two_providers 7%nat (Some 0%nat)
              [Some 0%nat; Some 1%nat; None; None; Some 1%nat])
    as (pg1 & pg2 & pg3 & Hmount & Hrun & Hun & H2 & H3).
  - repeat constructor; unfold wf; simpl; lia.
  - intros [| [| k]]; compute_done.
  - simpl. lia.
  - repeat constructor; simpl; lia.
  - exists pg1, pg2, pg3.
    split; [exact Hmount |]. split; [exact Hrun |]. split; [exact Hun |].
    split; [apply (H2 0%nat) |]. split; [apply (H2 1%nat) |].
    split; [apply (H3 0%nat) | apply (H3 1%nat)].
Defined.

Lemma observe_sync_calls (u : updater) (l : list Call) (c : Consumer) :
  Forall (fun call => callee call = u /\ arg_bitmask call = 0) l ->
  observe u l c = c.
Proof.
  induction 1 as [| call l [_ Hzero] _ IH]; [reflexivity |].
  simpl. rewrite Hzero. change (of_Z 0) with (Num (inject_Z 0)) in *.
  destruct (Nat.eqb (callee call) u); [| exact IH].
  change (Num (inject_Z 0)) with (of_Z 0).
  now rewrite updateContext_zero.
Qed.

(** X13: mounting, re-subscribing and unmounting by themselves never change
    a Consumer: each call they make of its updater carries descriptor 0,
    which [updateContext] ignores whatever the mask.  So a Consumer that
    moves under another Provider keeps the value it held, until that
    Provider's value next changes. *)
Theorem lifecycle_leaves_the_state (pg : Page) (u : updater)
    (ctx0 : option nat) (ctxs : list (option nat)) (c : Consumer) :
  Forall wf (hubs pg) ->
  (forall k, u ∉ page_updaters k pg) ->
  in_page pg ctx0 -> Forall (in_page pg) ctxs ->
  exists pg1 pg2,
    Consumer_componentDidMount ctx0 u pg = Some pg1 /\
    Consumer_updates ctx0 ctxs u pg1 = Some pg2 /\
    forall k,
      exists made,
        page_calls k pg2 = page_calls k pg ++ made /\
        Forall (fun call => callee call = u /\ arg_bitmask call = 0) made /\
        observe u made c = c.
Proof.
  intros Hwf Hbase Hctx0 Hctxs.
  destruct (lifecycle_attached pg u ctx0 ctxs Hwf Hbase Hctx0 Hctxs)
    as (pg1 & pg2 & _ & Hmount & Hrun & _ & Hatt2 & _).
  exists pg1, pg2. split; [exact Hmount |]. split; [exact Hrun |].
  intros k. destruct Hatt2 as (_ & _ & _ & Hk).
  destruct (Hk k) as (_ & _ & made & Hcalls & Hmade).
  exists made. split; [exact Hcalls |]. split; [exact Hmade |].
  now apply observe_sync_calls.
Qed.

(** [lifecycle_leaves_the_state] for a Consumer that is constructed and
    mounted under the Provider holding 10 and then moved under the Provider
    holding 20: it has been called with 20 and still holds 10. *)
Lemma lifecycle_leaves_the_state_witness :
  let c := Consumer_constructor (JNum (of_Z 42))
             {| children := Some [JFun 1]; render := JUndefined;
                unstable_observedBits := Undefined |}
             (hub <$> hubs two_providers !! 0%nat) in
  exists pg1 pg2,
    Consumer_componentDidMount (Some 0%nat) 7%nat two_providers = Some pg1 /\
    Consumer_updates (Some 0%nat) [Some 1%nat] 7%nat pg1 = Some pg2 /\
    page_calls 1 pg2 = [call_of (JNum (of_Z 20)) 0 0 7%nat] /\
    observe 7%nat (page_calls 1 pg2) c = c /\
    state_value (state c) = JNum (of_Z 10).
Proof.
  intros c.
  destruct (lifecycle_leaves_the_state two_providers 7%nat (Some 0%nat)
              [Some 1%nat] c)
    as (pg1 & pg2 & Hmount & Hrun & Hcalls).
  - repeat constructor; unfold wf; simpl; lia.
  - intros [| [| k]]; compute_done.
  - simpl. lia.
  - repeat constructor; simpl; lia.
  - exists pg1, pg2. split; [exact Hmount |]. split; [exact Hrun |].
    destruct (Hcalls 1%nat) as (made & Hmade & _ & Hsame).
    assert (Hm : page_calls 1 pg2 = made) by exact Hmade.
    split; [| split; [rewrite Hm; exact Hsame | reflexivity]].
    vm_compute in Hmount. injection Hmount as <-.
    vm_compute in Hrun. injection Hrun as <-.
    reflexivity.
Defined.

(** X14: over a Consumer's whole life the console gets one "Consumer used
    without a Provider" warning for each time the Consumer comes to be
    without a Provider (at mount, or when an update takes its Provider away),
    and none while it stays without one or has one; unmounting warns
    never. *)
Theorem one_warning_per_loss (pg : Page) (u : updater) (ctx0 : option nat)
    (ctxs : list (option nat)) :
  Forall wf (hubs pg) ->
  (forall k, u ∉ page_updaters k pg) ->
  in_page pg ctx0 -> Forall (in_page pg) ctxs ->
  exists pg1 pg2 pg3,
    Consumer_componentDidMount ctx0 u pg = Some pg1 /\
    Consumer_updates ctx0 ctxs u pg1 = Some pg2 /\
    Consumer_componentWillUnmount (default ctx0 (last ctxs)) u pg2
    = Some pg3 /\
    page_console pg3
    = page_console pg
      ++ replicate (match ctx0 with Some _ => 0 | None => 1 end
                    + losses ctx0 ctxs)
           "Consumer used without a Provider".
Proof.
  intros Hwf Hbase Hctx0 Hctxs.
  destruct (lifecycle_attached pg u ctx0 ctxs Hwf Hbase Hctx0 Hctxs)
    as (pg1 & pg2 & pg3 & Hmount & Hrun & Hun & _ & Hatt3).
  exists pg1, pg2, pg3. repeat split; try assumption. apply Hatt3.
Qed.

(** [one_warning_per_loss] for a Consumer that is mounted without a
    Provider, stays so for two updates, gets a Provider and loses it again:
    two warnings. *)
Lemma one_warning_per_loss_witness :
  exists pg1 pg2 pg3,
    Consumer_componentDidMount None 7%nat two_providers = Some pg1 /\
    Consumer_updates None [None; None; Some 1%nat; None] 7%nat pg1
    = Some pg2 /\
    Consumer_componentWillUnmount None 7%nat pg2 = Some pg3 /\
    page_console pg3
    = ["Consumer used without a Provider";
       "Consumer used without a Provider"].
Proof.
  destruct (one_warning_per_loss two_providers 7%nat None
              [None; None; Some 1%nat; None])
    as (pg1 & pg2 & pg3 & Hmount & Hrun & Hun & Hconsole).
  - repeat constructor; unfold wf; simpl; lia.
  - intros [| [| k]]; compute_done.
  - exact I.
  - repeat constructor; simpl; lia.
  - exists pg1, pg2, pg3. repeat split; assumption.
Defined.

(** ** A Consumer hears the Provider it is under *)

Lemma calls_to_absent (u : updater) (v : JsValue) (d : Z) (k : nat)
    (l : list updater) :
  u ∉ l -> filter (fun c => callee c = u) (map (call_of v d k) l) = [].
Proof.
  induction l as [| i l IH]; intros Hu; [reflexivity |].
  cbn [map]. rewrite filter_cons_False.
  - apply IH. intros Hin. apply Hu. now right.
  - simpl. intros ->. apply Hu. left.
Qed.

Lemma calls_to_subscriber (u : updater) (l : list updater) (here : bool)
    (depth0 : nat) (f : BitmaskFactory) (changed : list (JsValue * JsValue)) :
  u ∉ l ->
  filter (fun c => callee c = u)
    (flat_map (fun change =>
                 map (call_of (snd change)
                        (to_int32 (f (fst change) (snd change))) depth0)
                   (l ++ (if here then [u] else [])))
       changed)
  = if here
    then map (fun change =>
                call_of (snd change) (to_int32 (f (fst change) (snd change)))
                  depth0 u) changed
    else [].
Proof.
  intros Hu. induction changed as [| change changed IH].
  - now destruct here.
  - cbn [flat_map]. rewrite filter_app, IH, map_app, filter_app.
    rewrite calls_to_absent by exact Hu.
    destruct here; [| reflexivity].
    simpl. now rewrite filter_cons_True by reflexivity.
Qed.

(** X15: after a Consumer has been mounted and moved about, an update of a
    Provider calls the Consumer's updater exactly when that Provider is the
    one of the Consumer's current context, and then once for each value that
    changed; the Providers it has left no longer call it. *)
Theorem Consumer_hears_its_Provider (pg : Page) (u : updater)
    (ctx0 : option nat) (ctxs : list (option nat)) (k : nat) (cx : Context)
    (values : list JsValue) :
  Forall wf (hubs pg) ->
  (forall i, u ∉ page_updaters i pg) ->
  in_page pg ctx0 -> Forall (in_page pg) ctxs ->
  (k < length (hubs pg))%nat ->
  exists pg1 pg2 w w',
    Consumer_componentDidMount ctx0 u pg = Some pg1 /\
    Consumer_updates ctx0 ctxs u pg1 = Some pg2 /\
    hubs pg2 !! k = Some w /\
    Provider_updates cx values w = Some w' /\
    filter (fun c => callee c = u) (new_calls w w')
    = if decide (default ctx0 (last ctxs) = Some k)
      then map (fun change =>
                  call_of (snd change)
                    (to_int32 (factory cx (fst change) (snd change)))
                    (depth w) u)
             (changes (value (hub w)) values)
      else [].
Proof.
  intros Hwf Hbase Hctx0 Hctxs Hk.
  destruct (lifecycle_attached pg u ctx0 ctxs Hwf Hbase Hctx0 Hctxs)
    as (pg1 & pg2 & _ & Hmount & Hrun & _ & Hatt2 & _).
  destruct (attached_lookup _ _ _ _ _ k Hatt2 Hk) as (w & Hw & Hwfw & Hup).
  destruct (Provider_updates_run cx values w Hwfw)
    as (w' & Hprov & Hcalls & _).
  exists pg1, pg2, w, w'.
  split; [exact Hmount |]. split; [exact Hrun |]. split; [exact Hw |].
  split; [exact Hprov |].
  unfold new_calls. rewrite Hcalls, drop_app_length, Hup.
  destruct (decide (default ctx0 (last ctxs) = Some k)).
  - apply (calls_to_subscriber u _ true). apply Hbase.
  - apply (calls_to_subscriber u _ false). apply Hbase.
Qed.

(** [Consumer_hears_its_Provider] for a Consumer moved from the first of two
    Providers to the second: when the first goes from 10 to 11 the Consumer
    is not called. *)
Lemma Consumer_hears_its_Provider_witness :
  exists pg1 pg2 w w',
    Consumer_componentDidMount (Some 0%nat) 7%nat two_providers = Some pg1 /\
    Consumer_updates (Some 0%nat) [Some 1%nat] 7%nat pg1 = Some pg2 /\
    hubs pg2 !! 0%nat = Some w /\
    Provider_updates (fst (createContext (JNum (of_Z 0)) None 0))
      [JNum (of_Z 11)] w = Some w' /\
    value (hub w') = JNum (of_Z 11) /\
    filter (fun c => callee c = 7%nat) (new_calls w w') = [].
Proof.
  destruct (Consumer_hears_its_Provider two_providers 7%nat (Some 0%nat)
              [Some 1%nat] 0%nat
              (fst (createContext (JNum (of_Z 0)) None 0)) [JNum (of_Z 11)])
    as (pg1 & pg2 & w & w' & Hmount & Hrun & Hw & Hprov & Hcalls).
  - repeat constructor; unfold wf; simpl; lia.
  - intros [| [| i]]; compute_done.
  - simpl. lia.
  - repeat constructor; simpl; lia.
  - simpl. lia.
  - exists pg1, pg2, w, w'.
    split; [exact Hmount |]. split; [exact Hrun |]. split; [exact Hw |].
    split; [exact Hprov |]. split; [| exact Hcalls].
    vm_compute in Hmount. injection Hmount as <-.
    vm_compute in Hrun. injection Hrun as <-.
    vm_compute in Hw. injection Hw as <-.
    vm_compute in Hprov. injection Hprov as <-. reflexivity.
Defined.
